(** * DittoX: the iteration controller and tool dispatcher of [main.py]

    A shallow embedding of [run_main_loop], of the capabilities it dispatches
    to and of [log_to_file], followed by the properties the specification
    states about them.

    Python's effects are threaded through a state-and-exception monad [M].
    What lies outside the process (the LiteLLM gateway, the file system,
    [json], [hashlib], [ast], [traceback], and how each call to [sqlite3]
    ends) is gathered in the record [Externals]; the program is a function
    of it. The rows of the table [codes] are kept in the state. *)

From Stdlib Require Import ZArith Lia Ascii String.
From stdpp Require Import base option list strings gmap pretty.

Local Open Scope Z_scope.
Set Warnings "-register-all".

(** ** Python values and exceptions *)

(** What [json.loads] can produce and what the capabilities return. A float
    is kept as its literal. *)
Inductive pyval : Type :=
| VNone
| VBool (b : bool)
| VInt (z : Z)
| VFloat (literal : string)
| VStr (s : string)
| VList (items : list pyval)
| VDict (entries : list (string * pyval)).

(** An instance of [Exception]: its class and [str(e)]. *)
Record Exn : Type := mkExn { exn_class : string; exn_str : string }.

Inductive Outcome (A : Type) : Type :=
| Returns (a : A)
| Raises (e : Exn).
Arguments Returns {A} a.
Arguments Raises {A} e.

Definition dq : string := String "034"%char EmptyString.
Definition nl : string := String "010"%char EmptyString.

(** ** Data model *)

(** The module-level dict [progress]. *)
Record Progress : Type := mkProgress {
  p_status : string;
  p_iteration : Z;
  p_max_iterations : Z;
  p_output : string;
  p_completed : bool
}.

(** [progress] as the module initialises it. *)
Definition progress0 : Progress :=
  {| p_status := "idle"; p_iteration := 0; p_max_iterations := 50;
     p_output := ""; p_completed := false |}.

(** An entry of [current_iteration['errors']]; the key ['traceback'] is not
    always there. *)
Record ErrorEntry : Type := mkError {
  err_action : string;
  err_error : string;
  err_traceback : option string
}.

(** The dict [current_iteration]. *)
Record IterationRecord : Type := mkRecord {
  rec_iteration : Z;
  rec_actions : list string;
  rec_llm_responses : list string;
  rec_tool_results : list (string * pyval);
  rec_errors : list ErrorEntry
}.

(** [tool_call.id], [tool_call.function.name], [tool_call.function.arguments]. *)
Record ToolCall : Type := mkToolCall {
  tc_id : string;
  tc_name : string;
  tc_arguments : string
}.

(** [response.choices[i].message]: [tool_calls] is a list, [None] being the
    empty one (the code only tests its truth and iterates over it). *)
Record LLMMessage : Type := mkLLMMessage {
  msg_content : option string;
  msg_tool_calls : list ToolCall
}.

(** A gateway response: for each choice its message, [None] when it is
    falsy, and what [response.get('error', ...)] finds. *)
Record Response : Type := mkResponse {
  resp_choices : list (option LLMMessage);
  resp_error : option string
}.

(** The elements of [messages]. *)
Inductive ConvMsg : Type :=
| RoleMsg (role : string) (content : string)
| AssistantMsg (m : LLMMessage)
| ToolMsg (tool_call_id : string) (name : string) (content : pyval).

(** What the run does that can be seen from outside, in order. *)
Inductive Event : Type :=
| EvProgress (p : Progress)
| EvCompletion (msgs : list ConvMsg) (with_tools : bool)
| EvCall (name : string) (function_args : pyval)
| EvLog (history : list IterationRecord)
| EvSleep (seconds : Z).

(** The keys of [available_functions]' values. *)
Inductive Tool : Type :=
| Tool_create_directory
| Tool_create_file
| Tool_update_file
| Tool_fetch_code
| Tool_task_completed
| Tool_store_code
| Tool_retrieve_code
| Tool_list_all_functions.

(** [available_functions]. *)
Definition available_functions : gmap string Tool :=
  list_to_map
    [ ("create_directory", Tool_create_directory);
      ("create_file", Tool_create_file);
      ("update_file", Tool_update_file);
      ("fetch_code", Tool_fetch_code);
      ("task_completed", Tool_task_completed);
      ("store_code", Tool_store_code);
      ("retrieve_code", Tool_retrieve_code);
      ("list_all_functions", Tool_list_all_functions) ].

(** The parameters each [def] declares (none has a default). *)
Definition parameters (t : Tool) : list string :=
  match t with
  | Tool_create_directory => ["path"]
  | Tool_create_file => ["path"; "content"]
  | Tool_update_file => ["path"; "content"]
  | Tool_fetch_code => ["file_path"]
  | Tool_task_completed => []
  | Tool_store_code => ["code_content"]
  | Tool_retrieve_code => ["code_id"]
  | Tool_list_all_functions => []
  end.

Inductive OpenMode : Type := Mode_x | Mode_w.

(** The statements that the capabilities hand to [cursor.execute]. *)
Inductive Statement : Type :=
| Insert_or_replace
| Select_content
| Select_all.

(** The calls that a function makes to [sqlite3], with the parameters that
    [execute] binds. *)
Inductive SqliteCall : Type :=
| Sq_connect
| Sq_cursor
| Sq_execute (statement : Statement) (parameters : list pyval)
| Sq_commit
| Sq_fetch
| Sq_close.

(** The rows of the table [codes], in the order of their rowids, which is
    the order in which a [SELECT] without [ORDER BY] returns them. *)
Abbreviation Table := (list (string * string)).

(** ** The environment *)

(** The libraries and the operating system, over a state [W] of their own. *)
Record Externals (W : Type) : Type := mkExternals {
  MODEL_NAME : string;
  BASE_DIR : string;
  (* litellm *)
  supports_function_calling : string → Outcome bool;
  completion : list ConvMsg → bool → W → Outcome Response * W;
  (* json, hashlib, traceback, str() *)
  json_loads : string → Outcome pyval;
  (* str.encode() (UnicodeEncodeError on a lone surrogate) and the digest
     of the bytes *)
  str_encode : string → Outcome string;
  sha256_hexdigest : string → string;
  format_exc : Exn → string;
  py_repr : pyval → string;
  (* the TypeError of a call whose keywords do not fit, the AttributeError
     of a missing method *)
  call_error : string → pyval → Exn;
  attribute_error : pyval → string → Exn;
  (* os and open *)
  os_path_exists : pyval → W → Outcome bool;
  os_makedirs : pyval → W → Outcome unit * W;
  open_write : OpenMode → pyval → pyval → W → Outcome unit * W;
  open_read : pyval → W → Outcome string;
  dump_log : list IterationRecord → W → Outcome unit * W;
  (* sqlite3: how a call ends, whatever it does to the table (a statement
     that cannot be prepared, a parameter that cannot be bound, a locked or
     unreadable file, ...); what a query finds for a parameter that is no
     str; and ast *)
  sqlite_call : SqliteCall → W → Outcome unit * W;
  sqlite_select_other : pyval → Table → Outcome (option string);
  ast_function_def : string → Outcome (option (string * option string))
}.
Arguments MODEL_NAME {W} _.
Arguments BASE_DIR {W} _.
Arguments supports_function_calling {W} _ _.
Arguments completion {W} _ _ _ _.
Arguments json_loads {W} _ _.
Arguments str_encode {W} _ _.
Arguments sha256_hexdigest {W} _ _.
Arguments format_exc {W} _ _.
Arguments py_repr {W} _ _.
Arguments call_error {W} _ _ _.
Arguments attribute_error {W} _ _ _.
Arguments os_path_exists {W} _ _ _.
Arguments os_makedirs {W} _ _ _.
Arguments open_write {W} _ _ _ _ _.
Arguments open_read {W} _ _ _.
Arguments dump_log {W} _ _ _.
Arguments sqlite_call {W} _ _ _.
Arguments sqlite_select_other {W} _ _ _.
Arguments ast_function_def {W} _ _.

(** ** State *)

(** The module globals ([progress]), the table [codes] of [codes.db], the
    outside world, the events so far and the locals of [run_main_loop]. [current_iteration] is the last element of
    [history_dict]: the code appends the dict to the list and keeps writing
    to it. *)
Record RunState (W : Type) : Type := mkState {
  progress : Progress;
  codes : Table;
  world : W;
  trace : list Event;
  history_dict : list IterationRecord;
  messages : list ConvMsg;
  output : string;
  iteration : Z
}.
Arguments mkState {W} _ _ _ _ _ _ _ _.
Arguments progress {W} _.
Arguments codes {W} _.
Arguments world {W} _.
Arguments trace {W} _.
Arguments history_dict {W} _.
Arguments messages {W} _.
Arguments output {W} _.
Arguments iteration {W} _.

Section State.
Context {W : Type}.
Implicit Type st : RunState W.

Definition set_progress (p : Progress) st : RunState W :=
  mkState p (codes st) (world st) (trace st) (history_dict st)
          (messages st) (output st) (iteration st).
Definition set_codes (c : Table) st : RunState W :=
  mkState (progress st) c (world st) (trace st) (history_dict st)
          (messages st) (output st) (iteration st).
Definition set_world (w : W) st : RunState W :=
  mkState (progress st) (codes st) w (trace st) (history_dict st)
          (messages st) (output st) (iteration st).
Definition set_trace (t : list Event) st : RunState W :=
  mkState (progress st) (codes st) (world st) t (history_dict st)
          (messages st) (output st) (iteration st).
Definition set_history_dict (h : list IterationRecord) st : RunState W :=
  mkState (progress st) (codes st) (world st) (trace st) h
          (messages st) (output st) (iteration st).
Definition set_messages (m : list ConvMsg) st : RunState W :=
  mkState (progress st) (codes st) (world st) (trace st) (history_dict st)
          m (output st) (iteration st).
Definition set_output (o : string) st : RunState W :=
  mkState (progress st) (codes st) (world st) (trace st) (history_dict st)
          (messages st) o (iteration st).
Definition set_iteration (i : Z) st : RunState W :=
  mkState (progress st) (codes st) (world st) (trace st) (history_dict st)
          (messages st) (output st) i.

(** The state in which a run starts: no local is bound yet. *)
Definition start_state (p : Progress) (c : Table) (w : W)
  : RunState W :=
  mkState p c w [] [] [] "" 0.
End State.

(** ** The monad *)

Definition M (W A : Type) : Type := RunState W → Outcome A * RunState W.

Section Monad.
Context {W : Type}.

Definition ret {A} (a : A) : M W A := λ st, (Returns a, st).
Definition raise {A} (e : Exn) : M W A := λ st, (Raises e, st).
Definition bind {A B} (m : M W A) (k : A → M W B) : M W B :=
  λ st, match m st with
        | (Returns a, st') => k a st'
        | (Raises e, st') => (Raises e, st')
        end.
(** [try: m  except Exception as e: handler e]. *)
Definition try_except {A} (m : M W A) (handler : Exn → M W A) : M W A :=
  λ st, match m st with
        | (Returns a, st') => (Returns a, st')
        | (Raises e, st') => handler e st'
        end.

Definition gets {A} (f : RunState W → A) : M W A := λ st, (Returns (f st), st).
Definition modify (f : RunState W → RunState W) : M W unit :=
  λ st, (Returns tt, f st).
Definition of_outcome {A} (o : Outcome A) : M W A := λ st, (o, st).
(** An effect on the outside world. *)
Definition effect {A} (f : W → Outcome A * W) : M W A :=
  λ st, let '(o, w) := f (world st) in (o, set_world w st).
(** A look at the outside world. *)
Definition observe {A} (f : W → Outcome A) : M W A :=
  λ st, (f (world st), st).
Definition emit (e : Event) : M W unit :=
  modify (λ st, set_trace (trace st ++ [e]) st).
End Monad.

Declare Scope py_scope.
Delimit Scope py_scope with py.
Notation "x <- m ;; k" := (bind m (λ x, k))
  (at level 20, m at level 99, k at level 200, only parsing) : py_scope.
Notation "m ;; k" := (bind m (λ _, k))
  (at level 100, k at level 200, only parsing, right associativity) : py_scope.
Local Open Scope py_scope.

(** ** The program *)

Section Program.
Context {W : Type} (ext : Externals W).
Local Abbreviation M := (M W).

(** *** Writes to [progress]

    Each assignment [progress[key] = value] is an event of its own: the
    poller of [/progress] can see the dict after any of them. *)
Definition write_progress (f : Progress → Progress) : M unit :=
  modify (λ st, set_progress (f (progress st)) st) ;;
  p <- gets progress ;;
  emit (EvProgress p).

Definition progress_status (v : string) : M unit :=
  write_progress (λ p, mkProgress v (p_iteration p) (p_max_iterations p)
                                 (p_output p) (p_completed p)).
Definition progress_iteration (v : Z) : M unit :=
  write_progress (λ p, mkProgress (p_status p) v (p_max_iterations p)
                                 (p_output p) (p_completed p)).
Definition progress_output (v : string) : M unit :=
  write_progress (λ p, mkProgress (p_status p) (p_iteration p)
                                 (p_max_iterations p) v (p_completed p)).
Definition progress_completed (v : bool) : M unit :=
  write_progress (λ p, mkProgress (p_status p) (p_iteration p)
                                 (p_max_iterations p) (p_output p) v).

(** *** Formatting *)

(** [str(v)], as an f-string applies it. *)
Definition py_str (v : pyval) : string :=
  match v with
  | VStr s => s
  | _ => py_repr ext v
  end.

Definition ROUTES_DIR : string := BASE_DIR ext +:+ "/routes".

(** *** The capabilities *)

Definition create_file (path content : pyval) : M pyval :=
  try_except
    (effect (open_write ext Mode_x path content) ;;
     ret (VStr ("Created file: " +:+ py_str path)))
    (λ e,
       if String.eqb (exn_class e) "FileExistsError" then
         effect (open_write ext Mode_w path content) ;;
         ret (VStr ("Updated file: " +:+ py_str path))
       else
         ret (VStr ("Error creating/updating file " +:+ py_str path
                    +:+ ": " +:+ exn_str e))).

Definition create_directory (path : pyval) : M pyval :=
  found <- observe (os_path_exists ext path) ;;
  if negb found then
    effect (os_makedirs ext path) ;;
    (match path with
     | VStr s =>
         if String.eqb s ROUTES_DIR then
           create_file (VStr (ROUTES_DIR +:+ "/__init__.py")) (VStr "") ;;
           ret tt
         else ret tt
     | _ => ret tt
     end) ;;
    ret (VStr ("Created directory: " +:+ py_str path))
  else
    ret (VStr ("Directory already exists: " +:+ py_str path)).

Definition update_file (path content : pyval) : M pyval :=
  try_except
    (effect (open_write ext Mode_w path content) ;;
     ret (VStr ("Updated file: " +:+ py_str path)))
    (λ e, ret (VStr ("Error updating file " +:+ py_str path
                     +:+ ": " +:+ exn_str e))).

Definition fetch_code (file_path : pyval) : M pyval :=
  try_except
    (code <- observe (open_read ext file_path) ;;
     ret (VStr code))
    (λ e, ret (VStr ("Error fetching code from " +:+ py_str file_path
                     +:+ ": " +:+ exn_str e))).

Definition task_completed : M pyval :=
  progress_status "completed" ;;
  progress_completed true ;;
  ret (VStr "Task marked as completed.").

(** *** The code store *)

(** Calls to [sqlite3] made in a row: the first that raises ends them. *)
Fixpoint sqlite_calls (calls : list SqliteCall) (w : W) : Outcome unit * W :=
  match calls with
  | [] => (Returns tt, w)
  | call :: rest =>
      match sqlite_call ext call w with
      | (Returns _, w') => sqlite_calls rest w'
      | (Raises e, w') => (Raises e, w')
      end
  end.

(** [INSERT OR REPLACE INTO codes (code_id, code_content) VALUES (?, ?)]:
    a row with this primary key is deleted, and the new row gets the next
    rowid, which puts it last. *)
Definition insert_or_replace (code_id code_content : string) (table : Table)
  : Table :=
  filter (λ row, row.1 ≠ code_id) table ++ [(code_id, code_content)].

(** [SELECT code_content FROM codes WHERE code_id = ?] with a [str], and
    [fetchone()]: the content of the first row with this key. *)
Definition lookup_code (code_id : string) (table : Table) : option string :=
  snd <$> head (filter (λ row, row.1 = code_id) table).

(** The calls of [store_code] up to the commit, lines 179-182. *)
Definition store_session (code_id code_content : string) : list SqliteCall :=
  [ Sq_connect; Sq_cursor;
    Sq_execute Insert_or_replace [VStr code_id; VStr code_content];
    Sq_commit ].

(** The row is in the table once [commit] has returned; when a call before
    that raises, the connection is dropped with the insertion pending and
    the table is as it was. *)
Definition store_code (code_content : pyval) : M pyval :=
  match code_content with
  | VStr s =>
      encoded <- of_outcome (str_encode ext s) ;;
      let code_id := sha256_hexdigest ext encoded in
      effect (sqlite_calls (store_session code_id s)) ;;
      modify (λ st, set_codes (insert_or_replace code_id s (codes st)) st) ;;
      effect (sqlite_calls [Sq_close]) ;;
      ret (VStr ("Code stored with ID: " +:+ code_id))
  | _ => raise (attribute_error ext code_content "encode")
  end.

(** What the query of [retrieve_code] finds. *)
Definition select_code (code_id : pyval) (table : Table)
  : Outcome (option string) :=
  match code_id with
  | VStr s => Returns (lookup_code s table)
  | _ => sqlite_select_other ext code_id table
  end.

(** The calls of [retrieve_code] up to [fetchone()], lines 187-190. *)
Definition select_session (code_id : pyval) : list SqliteCall :=
  [ Sq_connect; Sq_cursor; Sq_execute Select_content [code_id]; Sq_fetch ].

Definition retrieve_code (code_id : pyval) : M pyval :=
  effect (sqlite_calls (select_session code_id)) ;;
  table <- gets codes ;;
  result <- of_outcome (select_code code_id table) ;;
  effect (sqlite_calls [Sq_close]) ;;
  match result with
  | Some code_content => ret (VStr code_content)
  | None => ret (VStr ("Code with ID " +:+ py_str code_id +:+ " not found."))
  end.

(** The calls of [list_all_functions], lines 198-202. *)
Definition list_session : list SqliteCall :=
  [ Sq_connect; Sq_cursor; Sq_execute Select_all []; Sq_fetch; Sq_close ].

(** One row of [list_all_functions]. *)
Definition describe_row (row : string * string) : pyval :=
  let '(code_id, code_content) := row in
  let '(function_name, function_description) :=
    match ast_function_def ext code_content with
    | Returns (Some (name, Some doc)) => (name, doc)
    | Returns (Some (name, None)) => (name, "No description available")
    | Returns None => ("Unknown", "No description available")
    | Raises e => ("Unknown", "Parsing error: " +:+ exn_str e)
    end in
  VDict [ ("code_id", VStr code_id);
          ("function_name", VStr function_name);
          ("function_description", VStr function_description) ].

Definition list_all_functions : M pyval :=
  effect (sqlite_calls list_session) ;;
  table <- gets codes ;;
  ret (VList (describe_row <$> table)).

(** *** Calling a capability with the keywords [function_args] *)

(** The keywords fit when [function_args] is a dict whose keys are the
    parameters of the function, all of them. Of a key written twice the
    dict holds the last value. *)
Definition bind_kwargs (function_name : string) (params : list string)
    (function_args : pyval) : Outcome (string → pyval) :=
  match function_args with
  | VDict entries =>
      if forallb (λ k, bool_decide (k ∈ params)) (entries.*1)
         && forallb (λ p, bool_decide (p ∈ entries.*1)) params
      then Returns (λ p, default VNone (list_to_map (M:=gmap string pyval)
                                                     (reverse entries) !! p))
      else Raises (call_error ext function_name function_args)
  | _ => Raises (call_error ext function_name function_args)
  end.

Definition call_function (function_name : string) (function_to_call : Tool)
    (function_args : pyval) : M pyval :=
  kw <- of_outcome (bind_kwargs function_name (parameters function_to_call)
                                function_args) ;;
  emit (EvCall function_name function_args) ;;
  match function_to_call with
  | Tool_create_directory => create_directory (kw "path")
  | Tool_create_file => create_file (kw "path") (kw "content")
  | Tool_update_file => update_file (kw "path") (kw "content")
  | Tool_fetch_code => fetch_code (kw "file_path")
  | Tool_task_completed => task_completed
  | Tool_store_code => store_code (kw "code_content")
  | Tool_retrieve_code => retrieve_code (kw "code_id")
  | Tool_list_all_functions => list_all_functions
  end.

(** *** [log_to_file] *)

Definition log_to_file (history : list IterationRecord) : M unit :=
  emit (EvLog history) ;;
  try_except (effect (dump_log ext history)) (λ _, ret tt).

Definition sleep (seconds : Z) : M unit := emit (EvSleep seconds).
(** *** Writes to the locals of [run_main_loop] *)

(** [current_iteration] is the dict appended last to
    [history_dict['iterations']]: a write to it is a write to the last
    element of the list. *)
Definition current_iteration_update (f : IterationRecord → IterationRecord)
  : M unit :=
  modify (λ st, set_history_dict
                  (alter f (pred (length (history_dict st))) (history_dict st))
                  st).

Definition add_llm_response (content : string) (r : IterationRecord)
  : IterationRecord :=
  mkRecord (rec_iteration r) (rec_actions r) (rec_llm_responses r ++ [content])
           (rec_tool_results r) (rec_errors r).
Definition add_tool_result (res : string * pyval) (r : IterationRecord)
  : IterationRecord :=
  mkRecord (rec_iteration r) (rec_actions r) (rec_llm_responses r)
           (rec_tool_results r ++ [res]) (rec_errors r).
Definition add_error (e : ErrorEntry) (r : IterationRecord) : IterationRecord :=
  mkRecord (rec_iteration r) (rec_actions r) (rec_llm_responses r)
           (rec_tool_results r) (rec_errors r ++ [e]).

Definition append_llm_response (content : string) : M unit :=
  current_iteration_update (add_llm_response content).
Definition append_tool_result (res : string * pyval) : M unit :=
  current_iteration_update (add_tool_result res).
Definition append_error (e : ErrorEntry) : M unit :=
  current_iteration_update (add_error e).

Definition append_output (s : string) : M unit :=
  modify (λ st, set_output (output st +:+ s) st).
Definition append_message (m : ConvMsg) : M unit :=
  modify (λ st, set_messages (messages st ++ [m]) st).
Definition increment_iteration : M unit :=
  modify (λ st, set_iteration (iteration st + 1) st).

(** *** The dispatcher: the body of [for tool_call in tool_calls] *)

Definition unavailable_error (function_name : string) : ErrorEntry :=
  {| err_action := "tool_call_" +:+ function_name;
     err_error := "Tool '" +:+ function_name +:+ "' is not available.";
     err_traceback := Some "No traceback available." |}.

Definition tool_error_entry (function_name : string) (tool_error : Exn)
  : ErrorEntry :=
  {| err_action := "tool_call_" +:+ function_name;
     err_error := "Error executing " +:+ function_name +:+ ": "
                  +:+ exn_str tool_error;
     err_traceback := Some (format_exc ext tool_error) |}.

(** Lines 470-471: parse the arguments, call the capability. *)
Definition execute_tool_call (function_to_call : Tool) (tool_call : ToolCall)
  : M pyval :=
  function_args <- of_outcome (json_loads ext (tc_arguments tool_call)) ;;
  call_function (tc_name tool_call) function_to_call function_args.

(** Lines 472-487: what follows a call that returned. [Some out] stands
    for [return out]. *)
Definition record_tool_result (tool_call : ToolCall)
    (function_response : pyval) : M (option string) :=
  let function_name := tc_name tool_call in
  append_tool_result (function_name, function_response) ;;
  append_output ("<strong>Tool Result (" +:+ function_name +:+ "):</strong>"
                 +:+ nl +:+ "<p>" +:+ py_str function_response +:+ "</p>"
                 +:+ nl) ;;
  append_message (ToolMsg (tc_id tool_call) function_name function_response) ;;
  if String.eqb function_name "task_completed" then
    progress_status "completed" ;;
    progress_completed true ;;
    append_output (nl +:+ "<h2>COMPLETE</h2>" +:+ nl) ;;
    out <- gets output ;;
    progress_output out ;;
    history <- gets history_dict ;;
    log_to_file history ;;
    ret (Some out)
  else ret None.

Definition dispatch_tool_call (tool_call : ToolCall) : M (option string) :=
  let function_name := tc_name tool_call in
  match available_functions !! function_name with
  | None =>
      append_error (unavailable_error function_name) ;;
      ret None
  | Some function_to_call =>
      try_except
        (function_response <- execute_tool_call function_to_call tool_call ;;
         record_tool_result tool_call function_response)
        (λ tool_error,
           append_error (tool_error_entry function_name tool_error) ;;
           ret None)
  end.

Fixpoint dispatch (tool_calls : list ToolCall) : M (option string) :=
  match tool_calls with
  | [] => ret None
  | tool_call :: rest =>
      r <- dispatch_tool_call tool_call ;;
      match r with
      | Some out => ret (Some out)
      | None => dispatch rest
      end
  end.

(** *** One pass of [while iteration < max_iterations] *)

(** How control leaves the [try] block of a pass. *)
Inductive PassExit : Type :=
| Fallthrough
| Continue
| Return (out : string).

(** [response.choices[0]]. *)
Definition first_choice (response : Response) : Outcome (option LLMMessage) :=
  match resp_choices response with
  | c :: _ => Returns c
  | [] => Raises (mkExn "IndexError" "list index out of range")
  end.

(** Lines 497-509: the follow-up call. *)
Definition second_completion : M unit :=
  msgs <- gets messages ;;
  emit (EvCompletion msgs false) ;;
  second_response <- effect (completion ext msgs false) ;;
  match resp_choices second_response with
  | Some second_response_message :: _ =>
      let content := default "" (msg_content second_response_message) in
      append_llm_response content ;;
      append_output ("<strong>LLM Response:</strong>" +:+ nl +:+ "<p>"
                     +:+ content +:+ "</p>" +:+ nl) ;;
      append_message (AssistantMsg second_response_message)
  | _ =>
      let error := default "Unknown error in second LLM response."
                           (resp_error second_response) in
      append_error (mkError "second_llm_completion" error None)
  end.

(** Lines 429-515: the [try] block. *)
Definition pass_try : M PassExit :=
  msgs <- gets messages ;;
  emit (EvCompletion msgs true) ;;
  response <- effect (completion ext msgs true) ;;
  message <- of_outcome (first_choice response) ;;
  match message with
  | None =>
      let error := default "Unknown error" (resp_error response) in
      append_error (mkError "llm_completion" error None) ;;
      history <- gets history_dict ;;
      log_to_file history ;;
      sleep 5 ;;
      increment_iteration ;;
      ret Continue
  | Some response_message =>
      let content := default "" (msg_content response_message) in
      append_llm_response content ;;
      i <- gets iteration ;;
      append_output (nl +:+ "<h2>Iteration " +:+ pretty (i + 1) +:+ ":</h2>"
                     +:+ nl) ;;
      let tool_calls := msg_tool_calls response_message in
      match tool_calls with
      | _ :: _ =>
          append_output ("<strong>Tool Call:</strong>" +:+ nl +:+ "<p>"
                         +:+ content +:+ "</p>" +:+ nl) ;;
          append_message (AssistantMsg response_message) ;;
          r <- dispatch tool_calls ;;
          match r with
          | Some out => ret (Return out)
          | None =>
              second_completion ;;
              out <- gets output ;;
              progress_output out ;;
              ret Fallthrough
          end
      | [] =>
          append_output ("<strong>LLM Response:</strong>" +:+ nl +:+ "<p>"
                         +:+ content +:+ "</p>" +:+ nl) ;;
          append_message (AssistantMsg response_message) ;;
          out <- gets output ;;
          progress_output out ;;
          ret Fallthrough
      end
  end.

Definition new_iteration (i : Z) : IterationRecord :=
  {| rec_iteration := i + 1; rec_actions := []; rec_llm_responses := [];
     rec_tool_results := []; rec_errors := [] |}.

Definition main_loop_error (e : Exn) : ErrorEntry :=
  {| err_action := "main_loop"; err_error := exn_str e;
     err_traceback := Some (format_exc ext e) |}.

(** Lines 418-527: the body of the loop. [Some out] stands for
    [return out]; [None] goes back to the test of the [while]. *)
Definition loop_pass : M (option string) :=
  i <- gets iteration ;;
  progress_iteration (i + 1) ;;
  modify (λ st, set_history_dict (history_dict st ++ [new_iteration i]) st) ;;
  exit <- try_except pass_try
            (λ e, append_error (main_loop_error e) ;; ret Fallthrough) ;;
  match exit with
  | Return out => ret (Some out)
  | Continue => ret None
  | Fallthrough =>
      increment_iteration ;;
      history <- gets history_dict ;;
      log_to_file history ;;
      sleep 2 ;;
      ret None
  end.

(** How the [while] ends. The loop is unrolled at most [fuel] times;
    [while_loop_fuel] shows that [Z.to_nat max_iterations] is enough. *)
Inductive LoopExit : Type :=
| LoopEnd
| LoopReturn (out : string)
| OutOfFuel.

Fixpoint while_loop (fuel : nat) (max_iterations : Z) : M LoopExit :=
  i <- gets iteration ;;
  if i <? max_iterations then
    match fuel with
    | O => ret OutOfFuel
    | S fuel' =>
        r <- loop_pass ;;
        match r with
        | Some out => ret (LoopReturn out)
        | None => while_loop fuel' max_iterations
        end
    end
  else ret LoopEnd.

(** *** [run_main_loop] *)

Definition read_instructions : M string :=
  observe (open_read ext (VStr (BASE_DIR ext +:+ "/instructions.md"))).

(** [json.dumps({"iterations": []}, indent=2)]. *)
Definition empty_history_json : string :=
  "{" +:+ nl +:+ "  " +:+ dq +:+ "iterations" +:+ dq +:+ ": []" +:+ nl +:+ "}".

Definition initial_messages (instructions user_input : string)
  : list ConvMsg :=
  [ RoleMsg "system" instructions;
    RoleMsg "user" user_input;
    RoleMsg "system" ("History:" +:+ nl +:+ empty_history_json) ].

(** [None] only when the loop ran out of fuel, which it does not
    ([run_main_loop_returns]). *)
Definition run_main_loop (user_input : string) : M (option string) :=
  modify (set_history_dict []) ;;
  supported <- of_outcome (supports_function_calling ext (MODEL_NAME ext)) ;;
  if negb supported then
    progress_status "error" ;;
    progress_output "Model does not support function calling." ;;
    progress_completed true ;;
    ret (Some "Model does not support function calling.")
  else
    max_iterations <- gets (λ st, p_max_iterations (progress st)) ;;
    modify (set_iteration 0) ;;
    instructions <- read_instructions ;;
    modify (set_messages (initial_messages instructions user_input)) ;;
    modify (set_output "") ;;
    exit <- while_loop (Z.to_nat max_iterations) max_iterations ;;
    match exit with
    | LoopReturn out => ret (Some out)
    | OutOfFuel => ret None
    | LoopEnd =>
        i <- gets iteration ;;
        (if i >=? max_iterations then progress_status "completed"
         else ret tt) ;;
        progress_completed true ;;
        progress_status "completed" ;;
        out <- gets output ;;
        ret (Some out)
    end.
End Program.

(** ** An environment to run the program in

    The gateway plays a script (its state counts the calls made), every
    operation on the file system succeeds except, on demand, the write of
    the log, every call to [sqlite3] returns, every text can be encoded,
    and [json.loads] knows three texts. The digest is replaced by the
    identity. *)

Definition args_empty : string := "{}".
Definition args_file : string :=
  "{" +:+ dq +:+ "path" +:+ dq +:+ ": " +:+ dq +:+ "a.txt" +:+ dq +:+ ", "
  +:+ dq +:+ "content" +:+ dq +:+ ": " +:+ dq +:+ "hello" +:+ dq +:+ "}".
Definition args_code : string :=
  "{" +:+ dq +:+ "code_content" +:+ dq +:+ ": " +:+ dq +:+ "pass" +:+ dq +:+ "}".

Definition sample_json_loads (s : string) : Outcome pyval :=
  if String.eqb s args_empty then Returns (VDict [])
  else if String.eqb s args_file then
    Returns (VDict [("path", VStr "a.txt"); ("content", VStr "hello")])
  else if String.eqb s args_code then
    Returns (VDict [("code_content", VStr "pass")])
  else Raises (mkExn "JSONDecodeError" "Expecting value: line 1 column 1 (char 0)").

Definition sample_externals (script : nat → Outcome Response)
    (supported log_fails : bool) : Externals nat :=
  {| MODEL_NAME := "gpt-4o";
     BASE_DIR := "/app";
     supports_function_calling := λ _, Returns supported;
     completion := λ _ _ n, (script n, S n);
     json_loads := sample_json_loads;
     str_encode := λ s, Returns s;
     sha256_hexdigest := λ s, s;
     format_exc := λ e, "Traceback (most recent call last): "
                        +:+ exn_class e +:+ ": " +:+ exn_str e;
     py_repr := λ _, "<object>";
     call_error := λ f _, mkExn "TypeError" (f +:+ "() got unexpected arguments");
     attribute_error := λ _ a,
       mkExn "AttributeError" ("object has no attribute '" +:+ a +:+ "'");
     os_path_exists := λ _ _, Returns false;
     os_makedirs := λ _ n, (Returns tt, n);
     open_write := λ _ _ _ n, (Returns tt, n);
     open_read := λ _ _, Returns "Build the app.";
     dump_log := λ _ n,
       if log_fails
       then (Raises (mkExn "OSError" "No space left on device"), n)
       else (Returns tt, n);
     sqlite_call := λ _ n, (Returns tt, n);
     sqlite_select_other := λ _ _, Returns None;
     ast_function_def := λ _, Returns None |}.

Definition text_reply (s : string) : Outcome Response :=
  Returns (mkResponse [Some (mkLLMMessage (Some s) [])] None).
Definition tool_reply (calls : list ToolCall) : Outcome Response :=
  Returns (mkResponse [Some (mkLLMMessage None calls)] None).

(** A file creation followed by the completion signal and by one more call. *)
Definition script_complete (n : nat) : Outcome Response :=
  match n with
  | O => tool_reply [ mkToolCall "call_1" "create_file" args_file;
                      mkToolCall "call_2" "task_completed" args_empty;
                      mkToolCall "call_3" "store_code" args_code ]
  | _ => text_reply "done"
  end.

(** An unknown tool, unreadable arguments, a call that raises, one that
    returns; then plain text. *)
Definition script_faults (n : nat) : Outcome Response :=
  match n with
  | O => tool_reply [ mkToolCall "call_1" "delete_file" args_file;
                      mkToolCall "call_2" "store_code" "{oops";
                      mkToolCall "call_3" "store_code" args_file;
                      mkToolCall "call_4" "store_code" args_code ]
  | _ => text_reply "ok"
  end.

(** A response without a usable message, then plain text. *)
Definition script_anomaly (n : nat) : Outcome Response :=
  match n with
  | O => Returns (mkResponse [None] (Some "overloaded"))
  | _ => text_reply "ok"
  end.

Definition sample_progress (max_iterations : Z) : Progress :=
  {| p_status := "running"; p_iteration := 0;
     p_max_iterations := max_iterations; p_output := "";
     p_completed := false |}.

Definition sample_start (max_iterations : Z) : RunState nat :=
  start_state (sample_progress max_iterations) [] O.

(** The sample run at the head of its loop, and inside its first pass. *)
Definition sample_entry (max_iterations : Z) : RunState nat :=
  set_output ""
    (set_messages
       [ RoleMsg "system" "Build the app."; RoleMsg "user" "hi";
         RoleMsg "system" "History: {}" ]
       (sample_start max_iterations)).

Definition sample_record : IterationRecord :=
  {| rec_iteration := 1; rec_actions := []; rec_llm_responses := [""];
     rec_tool_results := []; rec_errors := [] |}.

Definition sample_in_pass (max_iterations : Z) : RunState nat :=
  set_history_dict [sample_record] (sample_entry max_iterations).

(** ** More environments

    [with_files] changes what the file system answers: whether paths
    exist, how [makedirs] and each mode of writing end, and what reading
    gives. *)
Definition with_files {W : Type} (found : Outcome bool)
    (makedirs : Outcome unit) (write : OpenMode → Outcome unit)
    (read : Outcome string) (ext : Externals W) : Externals W :=
  {| MODEL_NAME := MODEL_NAME ext;
     BASE_DIR := BASE_DIR ext;
     supports_function_calling := supports_function_calling ext;
     completion := completion ext;
     json_loads := json_loads ext;
     str_encode := str_encode ext;
     sha256_hexdigest := sha256_hexdigest ext;
     format_exc := format_exc ext;
     py_repr := py_repr ext;
     call_error := call_error ext;
     attribute_error := attribute_error ext;
     os_path_exists := λ _ _, found;
     os_makedirs := λ _ w, (makedirs, w);
     open_write := λ mode _ _ w, (write mode, w);
     open_read := λ _ _, read;
     dump_log := dump_log ext;
     sqlite_call := sqlite_call ext;
     sqlite_select_other := sqlite_select_other ext;
     ast_function_def := ast_function_def ext |}.

(** A file that exists already and cannot be written. *)
Definition locked_file (mode : OpenMode) : Outcome unit :=
  match mode with
  | Mode_x => Raises (mkExn "FileExistsError" "[Errno 17] File exists: 'a.txt'")
  | Mode_w => Raises (mkExn "PermissionError" "[Errno 13] Permission denied: 'a.txt'")
  end.

Definition sample_locked : Externals nat :=
  with_files (Returns false) (Raises (mkExn "PermissionError" "[Errno 13] Permission denied: '/app/routes'"))
    locked_file (Raises (mkExn "FileNotFoundError" "[Errno 2] No such file or directory: 'instructions.md'"))
    (sample_externals script_faults true false).

(** [with_json_loads] changes the decoder. *)
Definition with_json_loads {W : Type} (loads : string → Outcome pyval)
    (ext : Externals W) : Externals W :=
  {| MODEL_NAME := MODEL_NAME ext;
     BASE_DIR := BASE_DIR ext;
     supports_function_calling := supports_function_calling ext;
     completion := completion ext;
     json_loads := loads;
     str_encode := str_encode ext;
     sha256_hexdigest := sha256_hexdigest ext;
     format_exc := format_exc ext;
     py_repr := py_repr ext;
     call_error := call_error ext;
     attribute_error := attribute_error ext;
     os_path_exists := os_path_exists ext;
     os_makedirs := os_makedirs ext;
     open_write := open_write ext;
     open_read := open_read ext;
     dump_log := dump_log ext;
     sqlite_call := sqlite_call ext;
     sqlite_select_other := sqlite_select_other ext;
     ast_function_def := ast_function_def ext |}.

(** [with_digest] changes the digest and what [str.encode] does. *)
Definition with_digest {W : Type} (encode : string → Outcome string)
    (digest : string → string) (ext : Externals W) : Externals W :=
  {| MODEL_NAME := MODEL_NAME ext;
     BASE_DIR := BASE_DIR ext;
     supports_function_calling := supports_function_calling ext;
     completion := completion ext;
     json_loads := json_loads ext;
     str_encode := encode;
     sha256_hexdigest := digest;
     format_exc := format_exc ext;
     py_repr := py_repr ext;
     call_error := call_error ext;
     attribute_error := attribute_error ext;
     os_path_exists := os_path_exists ext;
     os_makedirs := os_makedirs ext;
     open_write := open_write ext;
     open_read := open_read ext;
     dump_log := dump_log ext;
     sqlite_call := sqlite_call ext;
     sqlite_select_other := sqlite_select_other ext;
     ast_function_def := ast_function_def ext |}.

(** A digest with collisions (the first two characters), and an encoder
    that refuses the text ["?"]. *)
Definition sample_digest : Externals nat :=
  with_digest
    (λ s, if String.eqb s "?"
          then Raises (mkExn "UnicodeEncodeError" "surrogates not allowed")
          else Returns s)
    (λ b, String.substring 0 2 b)
    (sample_externals script_faults true false).

Definition args_number : string :=
  "{" +:+ dq +:+ "code_content" +:+ dq +:+ ": 5}".

(** A decoder that knows [args_number] besides. *)
Definition sample_numbers : Externals nat :=
  with_json_loads
    (λ s, if String.eqb s args_number
          then Returns (VDict [("code_content", VInt 5)])
          else sample_json_loads s)
    (sample_externals script_faults true false).

(** A gateway that is down, and one whose responses hold no choice. *)
Definition script_down (n : nat) : Outcome Response :=
  Raises (mkExn "APIConnectionError" "Connection error.").
Definition script_blank (n : nat) : Outcome Response :=
  Returns (mkResponse [] None).
Definition text_reply_script (n : nat) : Outcome Response := text_reply "done".

(** The state in which a pass dispatches the batch of the message [m] that
    the gateway returned, leaving the outside world as [w] (lines 418-454):
    the pass is numbered and shown, its record holds the text of the
    message, and the message has joined the conversation. *)
Definition before_dispatch {W : Type} (m : LLMMessage) (w : W)
    (st : RunState W) : RunState W :=
  let shown :=
    mkProgress (p_status (progress st)) (iteration st + 1)
               (p_max_iterations (progress st)) (p_output (progress st))
               (p_completed (progress st)) in
  let content := default "" (msg_content m) in
  {| progress := shown;
     codes := codes st;
     world := w;
     trace := trace st ++ [EvProgress shown; EvCompletion (messages st) true];
     history_dict :=
       history_dict st ++ [mkRecord (iteration st + 1) [] [content] [] []];
     messages := messages st ++ [AssistantMsg m];
     output :=
       (output st +:+ nl +:+ "<h2>Iteration " +:+ pretty (iteration st + 1)
        +:+ ":</h2>" +:+ nl)
       +:+ "<strong>Tool Call:</strong>" +:+ nl +:+ "<p>" +:+ content
       +:+ "</p>" +:+ nl;
     iteration := iteration st |}.

(** The batch of [script_faults]. *)
Definition faulty_batch : list ToolCall :=
  [ mkToolCall "call_1" "delete_file" args_file;
    mkToolCall "call_2" "store_code" "{oops";
    mkToolCall "call_3" "store_code" args_file;
    mkToolCall "call_4" "store_code" args_code ].

(** * Vocabulary of the properties *)

(** ** Reading the trace *)

(** The states of [progress] that a poller could have seen. *)
Definition observations (tr : list Event) : list Progress :=
  omap (λ e, match e with EvProgress p => Some p | _ => None end) tr.
(** The calls to [completion]. *)
Definition gateway_calls (tr : list Event) : list (list ConvMsg * bool) :=
  omap (λ e, match e with EvCompletion m t => Some (m, t) | _ => None end) tr.
(** The capabilities that were entered, with their keywords. *)
Definition capability_calls (tr : list Event) : list (string * pyval) :=
  omap (λ e, match e with EvCall n a => Some (n, a) | _ => None end) tr.
(** The histories handed to [log_to_file]. *)
Definition persisted (tr : list Event) : list (list IterationRecord) :=
  omap (λ e, match e with EvLog h => Some h | _ => None end) tr.

(** ** Contents and their ids *)

(** No collision between two contents: when both can be encoded and their
    digests agree, they are the same content. *)
Definition no_collision {W : Type} (ext : Externals W) (c1 c2 : string)
  : Prop :=
  ∀ b1 b2,
    str_encode ext c1 = Returns b1 → str_encode ext c2 = Returns b2 →
    sha256_hexdigest ext b1 = sha256_hexdigest ext b2 → c1 = c2.

(** ** What a tool call answers *)

Section Answers.
Context {W : Type} (ext : Externals W).

(** What the call returns; [None] when its dispatch fails: the name is
    not registered, the arguments do not parse, or the capability raises. *)
Definition call_result (tool_call : ToolCall) (st : RunState W)
  : option pyval :=
  match available_functions !! tc_name tool_call with
  | None => None
  | Some function_to_call =>
      match (execute_tool_call ext function_to_call tool_call st).1 with
      | Returns function_response => Some function_response
      | Raises _ => None
      end
  end.

(** The tool-role message of a call that returned. *)
Definition tool_reply_of (tool_call : ToolCall) (st : RunState W)
  : list ConvMsg :=
  match call_result tool_call st with
  | Some function_response =>
      [ToolMsg (tc_id tool_call) (tc_name tool_call) function_response]
  | None => []
  end.

(** The tool-role messages of a batch: one for each call that was reached
    and returned, in order. *)
Fixpoint tool_replies (tool_calls : list ToolCall) (st : RunState W)
  : list ConvMsg :=
  match tool_calls with
  | [] => []
  | tool_call :: rest =>
      tool_reply_of tool_call st
      ++ match dispatch_tool_call ext tool_call st with
         | (Returns None, st') => tool_replies rest st'
         | _ => []
         end
  end.
End Answers.

(** ** Counting passes *)

Section Passes.
Context {W : Type} (ext : Externals W).

(** The state after [n] passes of the loop, when the run gets that far: the
    test of the [while] held before each of them and none returned from
    [run_main_loop]. *)
Fixpoint after_passes (n : nat) (max_iterations : Z) (st : RunState W)
  : option (RunState W) :=
  match n with
  | O => Some st
  | S n' =>
      if iteration st <? max_iterations then
        match loop_pass ext st with
        | (Returns None, st') => after_passes n' max_iterations st'
        | _ => None
        end
      else None
  end.

(** The history counts [n] passes: it has [n] records, numbered from 1 to
    [n], and since [logged_before] the history was handed to [log_to_file]
    [n] times, the [k]-th time with the [k] records of the first [k]
    passes, as they still are. *)
Definition counted (logged_before : list (list IterationRecord)) (n : nat)
    (st : RunState W) : Prop :=
  length (history_dict st) = n ∧
  rec_iteration <$> history_dict st = Z.of_nat <$> seq 1 n ∧
  persisted (trace st)
  = logged_before ++ ((λ k, take k (history_dict st)) <$> seq 1 n).

(** The state in which [run_main_loop] reaches its loop (lines 393-415),
    the precheck passed and the instructions read. *)
Definition loop_entry (instructions user_input : string) (st : RunState W)
  : RunState W :=
  set_output ""
    (set_messages (initial_messages instructions user_input)
       (set_iteration 0 (set_history_dict [] st))).
End Passes.

(** ** Relations between the states of a run *)

Section Relations.
Context {W : Type}.
Implicit Type st : RunState W.

(** [steps R m]: whatever [m] does to a state stays within [R]. *)
Definition steps {A} (R : relation (RunState W)) (m : M W A) : Prop :=
  ∀ st, R st (m st).2.

(** [f] reads the same in both states. *)
Definition same_on {B} (f : RunState W → B) : relation (RunState W) :=
  λ st st', f st' = f st.

(** What a capability leaves alone: the locals of [run_main_loop], the
    counter shown in [progress], and the record of gateway calls and of
    writes of the log. *)
Definition beyond_tools st :=
  (history_dict st, messages st, output st, iteration st,
   p_iteration (progress st), p_max_iterations (progress st),
   gateway_calls (trace st), persisted (trace st)).

(** What the dispatcher leaves alone besides: it calls no gateway and does
    not count passes. *)
Definition beyond_dispatch st := (iteration st, gateway_calls (trace st)).

(** The counter that [progress] shows. *)
Definition counter_shown st := p_iteration (progress st).

(** What a capability leaves alone once it is entered. *)
Definition beyond_body st :=
  (beyond_tools st, capability_calls (trace st)).

(** What the follow-up call leaves alone: the count of passes, the record
    of the writes of the log and of the capabilities entered. *)
Definition beyond_followup st :=
  (iteration st, persisted (trace st), capability_calls (trace st)).

(** Within a pass the history keeps its length, its indices and all its
    records but the last. *)
Definition history_kept st st' : Prop :=
  length (history_dict st') = length (history_dict st) ∧
  rec_iteration <$> history_dict st' = rec_iteration <$> history_dict st ∧
  take (pred (length (history_dict st))) (history_dict st')
  = take (pred (length (history_dict st))) (history_dict st).

(** The indices of the records of the history. *)
Definition indices st : list Z := rec_iteration <$> history_dict st.

(** What [progress] may become in a run that found it as [p0]: the ceiling
    stays, the status stays or becomes ["completed"], the counter stays or
    is at most the ceiling. *)
Definition progress_step (p0 p : Progress) : Prop :=
  p_max_iterations p = p_max_iterations p0 ∧
  (p_status p = p_status p0 ∨ p_status p = "completed") ∧
  (p_iteration p = p_iteration p0 ∨ p_iteration p ≤ p_max_iterations p0).

(** [progress], and each state of it shown since, is a [progress_step]. *)
Definition run_step st st' : Prop :=
  progress_step (progress st) (progress st') ∧
  ∃ evs, trace st' = trace st ++ evs ∧
         Forall (progress_step (progress st)) (observations evs).
End Relations.

(** The conversation only grows: what it held stays at its head, and every
    gateway call made since was made with a conversation that begins with
    what it held. *)
Definition conversation_grows {W : Type} (st st' : RunState W) : Prop :=
  messages st `prefix_of` messages st' ∧
  ∃ evs, trace st' = trace st ++ evs ∧
         Forall (λ call, messages st `prefix_of` call.1) (gateway_calls evs).

(** The entry that a tool-role message mirrors in [tool_results]. *)
Definition result_of_reply (m : ConvMsg) : option (string * pyval) :=
  match m with
  | ToolMsg _ name content => Some (name, content)
  | _ => None
  end.

(** A record whose [actions] are empty. *)
Definition without_action (r : IterationRecord) : Prop := rec_actions r = [].

(** Records without action stay so, new records come without action, and
    every history handed to [log_to_file] since holds only such records. *)
Definition actions_stay_empty {W : Type} (st st' : RunState W) : Prop :=
  Forall without_action (history_dict st) →
  Forall without_action (history_dict st') ∧
  ∃ evs, trace st' = trace st ++ evs ∧
         Forall (Forall without_action) (persisted evs).


(** * Properties *)

(** ** Running the monad *)

Section Running.
Context {W : Type}.
Implicit Type st : RunState W.

Lemma bind_returns {A B} (m : M W A) (k : A → M W B) st a st' :
  m st = (Returns a, st') → bind m k st = k a st'.
Proof. intros E. unfold bind. by rewrite E. Qed.

Lemma bind_raises {A B} (m : M W A) (k : A → M W B) st e st' :
  m st = (Raises e, st') → bind m k st = (Raises e, st').
Proof. intros E. unfold bind. by rewrite E. Qed.

Lemma try_returns {A} (m : M W A) (h : Exn → M W A) st a st' :
  m st = (Returns a, st') → try_except m h st = (Returns a, st').
Proof. intros E. unfold try_except. by rewrite E. Qed.

Lemma try_raises {A} (m : M W A) (h : Exn → M W A) st e st' :
  m st = (Raises e, st') → try_except m h st = h e st'.
Proof. intros E. unfold try_except. by rewrite E. Qed.

Lemma bind_ret {A B} (a : A) (k : A → M W B) st : bind (ret a) k st = k a st.
Proof. done. Qed.
Lemma bind_gets {A B} (f : RunState W → A) (k : A → M W B) st :
  bind (gets f) k st = k (f st) st.
Proof. done. Qed.
Lemma bind_modify {B} (g : RunState W → RunState W) (k : unit → M W B) st :
  bind (modify g) k st = k tt (g st).
Proof. done. Qed.
Lemma bind_emit {B} (e : Event) (k : unit → M W B) st :
  bind (emit e) k st = k tt (set_trace (trace st ++ [e]) st).
Proof. done. Qed.
Lemma bind_of_outcome {A B} (o : Outcome A) (k : A → M W B) st :
  bind (of_outcome o) k st
  = match o with Returns a => k a st | Raises e => (Raises e, st) end.
Proof. by destruct o. Qed.
Lemma bind_effect {A B} (f : W → Outcome A * W) (k : A → M W B) st :
  bind (effect f) k st
  = match f (world st) with
    | (Returns a, w) => k a (set_world w st)
    | (Raises e, w) => (Raises e, set_world w st)
    end.
Proof. unfold bind, effect. by destruct (f (world st)) as [[a|e] w]. Qed.
Lemma bind_assoc {A B C} (m : M W A) (k : A → M W B) (k' : B → M W C) st :
  bind (bind m k) k' st = bind m (λ a, bind (k a) k') st.
Proof. unfold bind. by destruct (m st) as [[a|e] st']. Qed.
Lemma effect_run {A} (f : W → Outcome A * W) st o w :
  f (world st) = (o, w) → effect f st = (o, set_world w st).
Proof. intros E. unfold effect. by rewrite E. Qed.

Context (R : relation (RunState W)) `{!PreOrder R}.

Lemma steps_ret {A} (a : A) : steps R (ret a).
Proof. intros st. reflexivity. Qed.
Lemma steps_raise {A} e : steps R (raise (A:=A) e).
Proof. intros st. reflexivity. Qed.
Lemma steps_gets {A} (f : RunState W → A) : steps R (gets f).
Proof. intros st. reflexivity. Qed.
Lemma steps_of_outcome {A} (o : Outcome A) : steps R (of_outcome o).
Proof. intros st. reflexivity. Qed.
Lemma steps_observe {A} (f : W → Outcome A) : steps R (observe f).
Proof. intros st. reflexivity. Qed.
Lemma steps_modify (g : RunState W → RunState W) :
  (∀ st, R st (g st)) → steps R (modify g).
Proof. intros H st. apply H. Qed.
Lemma steps_effect {A} (f : W → Outcome A * W) :
  (∀ st w, R st (set_world w st)) → steps R (effect f).
Proof.
  intros H st. unfold effect. destruct (f (world st)) as [o w]. apply H.
Qed.
Lemma steps_bind {A B} (m : M W A) (k : A → M W B) :
  steps R m → (∀ a, steps R (k a)) → steps R (bind m k).
Proof.
  intros Hm Hk st. unfold bind. specialize (Hm st).
  destruct (m st) as [[a|e] st']; simpl in *; [|done].
  etrans; [exact Hm | apply Hk].
Qed.
Lemma steps_try {A} (m : M W A) (h : Exn → M W A) :
  steps R m → (∀ e, steps R (h e)) → steps R (try_except m h).
Proof.
  intros Hm Hh st. unfold try_except. specialize (Hm st).
  destruct (m st) as [[a|e] st']; simpl in *; [done|].
  etrans; [exact Hm | apply Hh].
Qed.
End Running.

(** Two states with the same components are the same. *)
Lemma state_eq {W} (st1 st2 : RunState W) :
  progress st1 = progress st2 → codes st1 = codes st2 →
  world st1 = world st2 → trace st1 = trace st2 →
  history_dict st1 = history_dict st2 → messages st1 = messages st2 →
  output st1 = output st2 → iteration st1 = iteration st2 →
  st1 = st2.
Proof. destruct st1, st2; cbn; by intros -> -> -> -> -> -> -> ->. Qed.

Create HintDb steps discriminated.

Ltac head_of t :=
  lazymatch t with
  | ?f _ => head_of f
  | _ => t
  end.

(** Decomposes a goal [steps R m] along the syntax of [m]; [leaf] closes
    what the writes of [m] leave to show. *)
Ltac steps_rule lem := apply lem; try (exact _).

Ltac steps_with leaf :=
  lazymatch goal with
  | |- steps _ (bind _ _) =>
      steps_rule steps_bind; [ steps_with leaf | intros ?; steps_with leaf ]
  | |- steps _ (try_except _ _) =>
      steps_rule steps_try; [ steps_with leaf | intros ?; steps_with leaf ]
  | |- steps _ (ret _) => steps_rule steps_ret
  | |- steps _ (raise _) => steps_rule steps_raise
  | |- steps _ (gets _) => steps_rule steps_gets
  | |- steps _ (of_outcome _) => steps_rule steps_of_outcome
  | |- steps _ (observe _) => steps_rule steps_observe
  | |- steps _ (modify _) => steps_rule steps_modify; intros ?; leaf
  | |- steps _ (effect _) => steps_rule steps_effect; intros ? ?; leaf
  | |- steps _ (match ?x with _ => _ end) => destruct x; steps_with leaf
  | |- steps _ (let _ := _ in _) => cbv zeta; steps_with leaf
  | |- steps _ ?m =>
      first
        [ solve [ auto with steps ]
        | let h := head_of m in unfold h; steps_with leaf ]
  end.

(** ** The relations are preorders *)

Section Preorders.
Context {W : Type}.
Implicit Type st : RunState W.

#[export] Instance same_on_preorder {B} (f : RunState W → B) :
  PreOrder (same_on f).
Proof.
  split; [by intros st | intros a b c]. unfold same_on. congruence.
Qed.

Lemma progress_step_refl p : progress_step p p.
Proof. unfold progress_step. auto. Qed.

Lemma progress_step_trans p0 p1 p2 :
  progress_step p0 p1 → progress_step p1 p2 → progress_step p0 p2.
Proof.
  unfold progress_step. intros (Hm & Hs & Hi) (Hm' & Hs' & Hi').
  split; [congruence|]. split.
  - destruct Hs' as [Hs'|Hs']; [rewrite Hs'; exact Hs | by right].
  - destruct Hi' as [Hi'|Hi']; [rewrite Hi'; exact Hi | right; by rewrite <- Hm].
Qed.

#[export] Instance run_step_preorder : PreOrder (run_step (W:=W)).
Proof.
  split.
  - intros st. split; [apply progress_step_refl|].
    exists []. by rewrite app_nil_r.
  - intros a b c (Hp & evs & Ht & Ho) (Hp' & evs' & Ht' & Ho'). split.
    + by eapply progress_step_trans.
    + exists (evs ++ evs'). split; [by rewrite Ht', Ht, app_assoc|].
      unfold observations in *. rewrite omap_app. apply Forall_app. split; [done|].
      eapply Forall_impl; [exact Ho'|]. intros p. by apply progress_step_trans.
Qed.

#[export] Instance history_kept_preorder : PreOrder (history_kept (W:=W)).
Proof.
  split; [by intros st|].
  intros a b c (Hl & Hi & Ht) (Hl' & Hi' & Ht'). unfold history_kept.
  rewrite Hl in Ht'. split_and!; congruence.
Qed.

Lemma history_kept_update (f : IterationRecord → IterationRecord) st :
  (∀ r, rec_iteration (f r) = rec_iteration r) →
  history_kept st
    (set_history_dict
       (alter f (pred (length (history_dict st))) (history_dict st)) st).
Proof.
  intros Hf. unfold history_kept. cbn. split_and!.
  - apply length_alter.
  - rewrite (list_fmap_alter _ _ id); [by apply list_alter_id|].
    by apply Forall_true.
  - by apply take_alter_ge.
Qed.

Lemma run_step_quiet st st' :
  progress st' = progress st → trace st' = trace st → run_step st st'.
Proof.
  intros Hp Ht. split; [rewrite Hp; apply progress_step_refl|].
  exists []. by rewrite Ht, app_nil_r.
Qed.

Lemma run_step_event st st' e :
  progress st' = progress st → trace st' = trace st ++ [e] →
  observations [e] = [] → run_step st st'.
Proof.
  intros Hp Ht He. split; [rewrite Hp; apply progress_step_refl|].
  exists [e]. split; [done|]. rewrite He. constructor.
Qed.

Lemma run_step_write (f : Progress → Progress) :
  (∀ p, progress_step p (f p)) → steps run_step (write_progress (W:=W) f).
Proof.
  intros Hf st. unfold write_progress. cbn. split; [apply Hf|].
  eexists. split; [reflexivity|]. cbn. constructor; [apply Hf | constructor].
Qed.
End Preorders.

Ltac leaf_same :=
  unfold same_on, beyond_body, beyond_tools, beyond_dispatch, beyond_followup,
    counter_shown,
    gateway_calls, persisted, capability_calls; cbn;
  rewrite ?omap_app; cbn; rewrite ?app_nil_r; reflexivity.

Ltac leaf_history :=
  first [ apply history_kept_update; by intros []
        | unfold history_kept; cbn; done ].

Ltac leaf_run_step :=
  first [ apply run_step_quiet; reflexivity
        | eapply run_step_event; reflexivity ].

(** ** The capabilities *)

Section Capabilities.
Context {W : Type} (ext : Externals W).
Implicit Type st : RunState W.

Lemma progress_status_completed_step :
  steps run_step (progress_status (W:=W) "completed").
Proof. apply run_step_write. intros p. unfold progress_step. cbn. auto. Qed.

Lemma progress_completed_step b : steps run_step (progress_completed (W:=W) b).
Proof. apply run_step_write. intros p. unfold progress_step. cbn. auto. Qed.

Lemma progress_output_step o : steps run_step (progress_output (W:=W) o).
Proof. apply run_step_write. intros p. unfold progress_step. cbn. auto. Qed.

Hint Resolve progress_status_completed_step progress_completed_step
  progress_output_step : steps.

(** A capability leaves the locals of [run_main_loop] alone, calls no
    gateway and writes no log. *)
Lemma call_function_beyond function_name function_to_call function_args :
  steps (same_on beyond_tools)
        (call_function ext function_name function_to_call function_args).
Proof. steps_with leaf_same. Qed.

(** What a capability shows in [progress] is a [progress_step]. *)
Lemma call_function_run_step function_name function_to_call function_args :
  steps run_step
        (call_function ext function_name function_to_call function_args).
Proof. steps_with leaf_run_step. Qed.

Hint Resolve call_function_beyond call_function_run_step : steps.

Lemma execute_tool_call_beyond function_to_call tool_call :
  steps (same_on beyond_tools) (execute_tool_call ext function_to_call tool_call).
Proof. steps_with leaf_same. Qed.

Lemma log_to_file_returns history st :
  (log_to_file ext history st).1 = Returns tt.
Proof.
  unfold log_to_file. rewrite bind_emit. unfold try_except, effect.
  by destruct (dump_log _ _ _) as [[[]|e] w].
Qed.
End Capabilities.

(** ** The dispatcher *)

Section Dispatcher.
Context {W : Type} (ext : Externals W).
Implicit Type st : RunState W.

Hint Resolve progress_status_completed_step progress_completed_step
  progress_output_step : steps.

Lemma dispatch_steps (R : relation (RunState W)) `{!PreOrder R} :
  (∀ tool_call, steps R (dispatch_tool_call ext tool_call)) →
  ∀ tool_calls, steps R (dispatch ext tool_calls).
Proof.
  intros H tool_calls.
  induction tool_calls as [|tool_call rest IH]; cbn [dispatch].
  - by apply steps_ret.
  - apply steps_bind; [done|apply H|]. intros [out|]; [by apply steps_ret|done].
Qed.

Lemma dispatch_beyond tool_calls :
  steps (same_on beyond_dispatch) (dispatch ext tool_calls).
Proof. apply dispatch_steps; [apply _|]. intros tc. steps_with leaf_same. Qed.

Lemma dispatch_counter tool_calls :
  steps (same_on counter_shown) (dispatch ext tool_calls).
Proof. apply dispatch_steps; [apply _|]. intros tc. steps_with leaf_same. Qed.

Lemma dispatch_history tool_calls :
  steps history_kept (dispatch ext tool_calls).
Proof. apply dispatch_steps; [apply _|]. intros tc. steps_with leaf_history. Qed.

Lemma dispatch_run_step tool_calls : steps run_step (dispatch ext tool_calls).
Proof. apply dispatch_steps; [apply _|]. intros tc. steps_with leaf_run_step. Qed.
End Dispatcher.

(** ** Single tool calls *)

Tactic Notation "simpl_state" :=
  cbn beta iota delta
    [progress codes world trace history_dict messages output iteration
     set_progress set_codes set_world set_trace set_history_dict
     set_messages set_output set_iteration
     p_status p_iteration p_max_iterations p_output p_completed fst snd].
Tactic Notation "simpl_state" "in" hyp(H) :=
  cbn beta iota delta
    [progress codes world trace history_dict messages output iteration
     set_progress set_codes set_world set_trace set_history_dict
     set_messages set_output set_iteration
     p_status p_iteration p_max_iterations p_output p_completed fst snd]
    in H.

Section ToolCalls.
Context {W : Type} (ext : Externals W).
Implicit Type st : RunState W.

Lemma alter_last {A} (f : A → A) (h : list A) (x : A) :
  alter f (pred (length (h ++ [x]))) (h ++ [x]) = h ++ [f x].
Proof.
  rewrite length_app. cbn. rewrite Nat.add_1_r. cbn.
  rewrite alter_app_r_alt by lia. by rewrite Nat.sub_diag.
Qed.

Lemma append_error_run e st h cur :
  history_dict st = h ++ [cur] →
  append_error e st = (Returns tt, set_history_dict (h ++ [add_error e cur]) st).
Proof.
  intros Hh. unfold append_error, current_iteration_update, modify.
  by rewrite Hh, alter_last.
Qed.

(** [log_to_file] run: the attempt is recorded, the write is made, and its
    outcome is dropped. *)
Lemma log_to_file_run history st o w :
  dump_log ext history (world st) = (o, w) →
  log_to_file ext history st
  = (Returns tt, set_world w (set_trace (trace st ++ [EvLog history]) st)).
Proof.
  intros E. unfold log_to_file. rewrite bind_emit. unfold try_except.
  erewrite effect_run by exact E. by destruct o as [[]|e].
Qed.

(** C9: [log_to_file] returns normally whether the write of the log
    returns or raises; apart from the attempt itself and from what the
    write did to the file system, the state is as before, so that the run
    goes on as if the write had succeeded. *)
Theorem log_to_file_swallows history st :
  match dump_log ext history (world st) with
  | (Returns _, w) | (Raises _, w) =>
      log_to_file ext history st
      = (Returns tt, set_world w (set_trace (trace st ++ [EvLog history]) st))
  end.
Proof.
  pose proof (log_to_file_run history st) as H.
  destruct (dump_log ext history (world st)) as [[[]|e] w]; by eapply H.
Qed.

(** C4: a tool call whose name is not in the registry raises nothing; the
    errors of the current iteration record grow by exactly one entry, with
    action [tool_call_<name>], message [Tool '<name>' is not available.]
    and the traceback text [No traceback available.]; nothing else of the
    record or of the state changes, and the dispatcher goes on with the
    rest of the batch. *)
Theorem unregistered_tool_is_recorded tool_call rest st h cur :
  available_functions !! tc_name tool_call = None →
  history_dict st = h ++ [cur] →
  let entry :=
    {| err_action := "tool_call_" +:+ tc_name tool_call;
       err_error := "Tool '" +:+ tc_name tool_call +:+ "' is not available.";
       err_traceback := Some "No traceback available." |} in
  let cur' :=
    {| rec_iteration := rec_iteration cur;
       rec_actions := rec_actions cur;
       rec_llm_responses := rec_llm_responses cur;
       rec_tool_results := rec_tool_results cur;
       rec_errors := rec_errors cur ++ [entry] |} in
  let st' :=
    {| progress := progress st; codes := codes st; world := world st;
       trace := trace st; history_dict := h ++ [cur'];
       messages := messages st; output := output st;
       iteration := iteration st |} in
  dispatch_tool_call ext tool_call st = (Returns None, st') ∧
  dispatch ext (tool_call :: rest) st = dispatch ext rest st'.
Proof.
  intros Hreg Hh entry cur' st'.
  assert (dispatch_tool_call ext tool_call st = (Returns None, st')) as E.
  { unfold dispatch_tool_call. rewrite Hreg.
    erewrite bind_returns by (by apply append_error_run). done. }
  split; [done|]. cbn [dispatch]. by erewrite bind_returns by exact E.
Qed.

Lemma execute_tool_call_cases function_to_call tool_call st e st1 :
  (json_loads ext (tc_arguments tool_call) = Raises e ∧ st1 = st) ∨
  (∃ function_args,
     json_loads ext (tc_arguments tool_call) = Returns function_args ∧
     call_function ext (tc_name tool_call) function_to_call function_args st
     = (Raises e, st1)) →
  execute_tool_call ext function_to_call tool_call st = (Raises e, st1).
Proof.
  unfold execute_tool_call. intros [[E ->]|(function_args & E & Ecall)].
  - by erewrite bind_raises by (unfold of_outcome; by rewrite E).
  - by erewrite bind_returns by (unfold of_outcome; by rewrite E).
Qed.

(** C5: when the arguments of a registered tool do not parse, or the
    capability raises, the exception stops at the dispatcher: the errors of
    the current iteration record grow by exactly one entry, with the action
    tag [tool_call_<name>], the message [Error executing <name>: <e>] and
    the traceback; nothing else of the record changes, the locals of the
    loop are as the failed call found them, and the dispatcher goes on with
    the rest of the batch (it neither returns from the run nor raises). *)
Theorem tool_fault_is_recorded tool_call function_to_call rest st h cur e st1 :
  available_functions !! tc_name tool_call = Some function_to_call →
  history_dict st = h ++ [cur] →
  (json_loads ext (tc_arguments tool_call) = Raises e ∧ st1 = st) ∨
  (∃ function_args,
     json_loads ext (tc_arguments tool_call) = Returns function_args ∧
     call_function ext (tc_name tool_call) function_to_call function_args st
     = (Raises e, st1)) →
  let entry :=
    {| err_action := "tool_call_" +:+ tc_name tool_call;
       err_error := "Error executing " +:+ tc_name tool_call +:+ ": "
                    +:+ exn_str e;
       err_traceback := Some (format_exc ext e) |} in
  let cur' :=
    {| rec_iteration := rec_iteration cur;
       rec_actions := rec_actions cur;
       rec_llm_responses := rec_llm_responses cur;
       rec_tool_results := rec_tool_results cur;
       rec_errors := rec_errors cur ++ [entry] |} in
  let st' :=
    {| progress := progress st1; codes := codes st1; world := world st1;
       trace := trace st1; history_dict := h ++ [cur'];
       messages := messages st1; output := output st1;
       iteration := iteration st1 |} in
  dispatch_tool_call ext tool_call st = (Returns None, st') ∧
  dispatch ext (tool_call :: rest) st = dispatch ext rest st' ∧
  messages st' = messages st ∧ output st' = output st ∧
  iteration st' = iteration st.
Proof.
  intros Hreg Hh Hfault entry cur' st'.
  apply execute_tool_call_cases with (function_to_call := function_to_call)
    in Hfault.
  pose proof (execute_tool_call_beyond ext function_to_call tool_call st) as Hb.
  rewrite Hfault in Hb. unfold same_on, beyond_tools in Hb. cbn in Hb.
  assert (dispatch_tool_call ext tool_call st = (Returns None, st')) as E.
  { unfold dispatch_tool_call. rewrite Hreg.
    erewrite try_raises by (by erewrite bind_raises by exact Hfault).
    erewrite bind_returns; [done|]. apply append_error_run. congruence. }
  split_and!; [done| |cbn; congruence..].
  cbn [dispatch]. by erewrite bind_returns by exact E.
Qed.

(** What follows a call that returned, when it is not the completion
    signal. *)
Lemma record_tool_result_other tool_call function_response st :
  String.eqb (tc_name tool_call) "task_completed" = false →
  ∃ st', record_tool_result ext tool_call function_response st
         = (Returns None, st') ∧
         messages st' = messages st
                        ++ [ToolMsg (tc_id tool_call) (tc_name tool_call)
                                    function_response] ∧
         trace st' = trace st ∧ progress st' = progress st.
Proof.
  intros Hne. unfold record_tool_result, append_tool_result,
    current_iteration_update, append_output, append_message.
  rewrite !bind_modify, Hne. by eexists.
Qed.

(** What follows a call of the completion signal that returned. *)
Lemma record_tool_result_completed tool_call function_response st :
  String.eqb (tc_name tool_call) "task_completed" = true →
  ∃ out st', record_tool_result ext tool_call function_response st
             = (Returns (Some out), st') ∧
             messages st' = messages st
                            ++ [ToolMsg (tc_id tool_call) (tc_name tool_call)
                                        function_response] ∧
             p_status (progress st') = "completed" ∧
             p_completed (progress st') = true ∧
             p_iteration (progress st') = p_iteration (progress st) ∧
             capability_calls (trace st') = capability_calls (trace st) ∧
             gateway_calls (trace st') = gateway_calls (trace st) ∧
             persisted (trace st') = persisted (trace st) ++ [history_dict st'] ∧
             iteration st' = iteration st.
Proof.
  intros Heq. unfold record_tool_result, append_tool_result,
    current_iteration_update, append_output, append_message.
  rewrite !bind_modify, Heq.
  unfold progress_status, progress_completed, progress_output, write_progress.
  rewrite !bind_assoc, !bind_modify. cbn beta.
  repeat (rewrite ?bind_assoc, ?bind_modify, ?bind_gets, ?bind_emit; simpl_state).
  match goal with
  | |- context [bind (log_to_file ext ?h) _ ?s] =>
      destruct (dump_log ext h (world s)) as [o w] eqn:E;
      erewrite (bind_returns (log_to_file ext h))
        by (eapply log_to_file_run; exact E)
  end.
  eexists _, _. split; [reflexivity|]. cbn.
  unfold capability_calls, gateway_calls, persisted.
  rewrite !omap_app. cbn. rewrite !app_nil_r. done.
Qed.

Lemma dispatch_tool_call_unfold tool_call st :
  dispatch_tool_call ext tool_call st =
  match available_functions !! tc_name tool_call with
  | None => (Returns None,
             (append_error (unavailable_error (tc_name tool_call)) st).2)
  | Some function_to_call =>
      match execute_tool_call ext function_to_call tool_call st with
      | (Returns function_response, st1) =>
          record_tool_result ext tool_call function_response st1
      | (Raises e, st1) =>
          (Returns None,
           (append_error (tool_error_entry ext (tc_name tool_call) e) st1).2)
      end
  end.
Proof.
  unfold dispatch_tool_call. destruct (available_functions !! _); [|done].
  unfold try_except, bind at 1.
  destruct (execute_tool_call _ _ _ _) as [[v|e] st1]; [|done].
  destruct (String.eqb (tc_name tool_call) "task_completed") eqn:Hn.
  - by destruct (record_tool_result_completed tool_call v st1 Hn)
      as (out & st' & -> & _).
  - by destruct (record_tool_result_other tool_call v st1 Hn) as (st' & -> & _).
Qed.

(** The dispatcher raises nothing. *)
Lemma dispatch_tool_call_returns tool_call st :
  ∃ r, (dispatch_tool_call ext tool_call st).1 = Returns r.
Proof.
  rewrite dispatch_tool_call_unfold.
  destruct (available_functions !! _) as [t|]; [|by eexists].
  destruct (execute_tool_call _ _ _ _) as [[v|e] st1]; [|by eexists].
  destruct (String.eqb (tc_name tool_call) "task_completed") eqn:Hn.
  - destruct (record_tool_result_completed tool_call v st1 Hn)
      as (out & st' & -> & _). by eexists.
  - destruct (record_tool_result_other tool_call v st1 Hn) as (st' & -> & _).
    by eexists.
Qed.

Lemma dispatch_returns tool_calls st :
  ∃ r, (dispatch ext tool_calls st).1 = Returns r.
Proof.
  revert st. induction tool_calls as [|tool_call rest IH]; intros st.
  - by eexists.
  - cbn [dispatch]. unfold bind.
    destruct (dispatch_tool_call_returns tool_call st) as [r Hr].
    destruct (dispatch_tool_call ext tool_call st) as [o st1]. cbn in Hr.
    subst o. destruct r as [out|]; [by eexists|apply IH].
Qed.

Lemma tool_message_of_call tool_call st :
  messages (dispatch_tool_call ext tool_call st).2
  = messages st ++ tool_reply_of ext tool_call st.
Proof.
  rewrite dispatch_tool_call_unfold. unfold tool_reply_of, call_result.
  destruct (available_functions !! _) as [t|]; [|by rewrite app_nil_r].
  pose proof (execute_tool_call_beyond ext t tool_call st) as Hb.
  unfold same_on, beyond_tools in Hb.
  destruct (execute_tool_call _ _ _ _) as [[v|e] st1]; cbn in Hb;
    cbn [fst snd].
  - assert (messages st1 = messages st) as <- by congruence.
    destruct (String.eqb (tc_name tool_call) "task_completed") eqn:Hn.
    + destruct (record_tool_result_completed tool_call v st1 Hn)
        as (out & st' & -> & Hm & _). done.
    + destruct (record_tool_result_other tool_call v st1 Hn)
        as (st' & -> & Hm & _). done.
  - rewrite app_nil_r. cbn. congruence.
Qed.

(** C10: a tool call adds a tool-role message to the conversation exactly
    when it returned ([call_result]); a call whose dispatch fails (name not
    registered, arguments that do not parse, capability that raises) adds
    none. After a batch the new messages are the tool-role messages of the
    calls that returned, so that the model is told nothing about the failed
    ones. *)
Theorem failed_calls_leave_no_message tool_call tool_calls st :
  messages (dispatch_tool_call ext tool_call st).2
  = messages st ++ match call_result ext tool_call st with
                   | Some function_response =>
                       [ToolMsg (tc_id tool_call) (tc_name tool_call)
                                function_response]
                   | None => []
                   end
  ∧ messages (dispatch ext tool_calls st).2
    = messages st ++ tool_replies ext tool_calls st.
Proof.
  split; [apply tool_message_of_call|].
  revert st. induction tool_calls as [|tc rest IH]; intros st.
  - cbn. by rewrite app_nil_r.
  - cbn [dispatch tool_replies]. unfold bind.
    pose proof (tool_message_of_call tc st) as Hm.
    destruct (dispatch_tool_call_returns tc st) as [r Hr].
    destruct (dispatch_tool_call ext tc st) as [o st1]. cbn in Hm, Hr.
    subst o. destruct r as [out|]; cbn.
    + by rewrite app_nil_r.
    + by rewrite IH, Hm, app_assoc.
Qed.
End ToolCalls.

(** ** The code store *)

Section CodeStore.
Context {W : Type} (ext : Externals W).
Implicit Type st : RunState W.

Lemma append_inj_r (p s t : string) : p +:+ s = p +:+ t → s = t.
Proof. induction p as [|a p IH]; cbn; [done|]. intros [= H]. by apply IH. Qed.

Lemma sqlite_calls_app calls1 calls2 w :
  sqlite_calls ext (calls1 ++ calls2) w
  = match sqlite_calls ext calls1 w with
    | (Returns _, w') => sqlite_calls ext calls2 w'
    | (Raises e, w') => (Raises e, w')
    end.
Proof.
  revert w. induction calls1 as [|call calls1 IH]; intros w; cbn; [done|].
  by destruct (sqlite_call ext call w) as [[[]|e] w'].
Qed.

(** A session that went through, cut in two. *)
Lemma sqlite_calls_returns calls1 calls2 w w' :
  sqlite_calls ext (calls1 ++ calls2) w = (Returns tt, w') →
  ∃ w1, sqlite_calls ext calls1 w = (Returns tt, w1) ∧
        sqlite_calls ext calls2 w1 = (Returns tt, w').
Proof.
  rewrite sqlite_calls_app.
  destruct (sqlite_calls ext calls1 w) as [[[]|e] w1]; [|done]. by exists w1.
Qed.

Lemma lookup_code_insert code_id code_content table :
  lookup_code code_id (insert_or_replace code_id code_content table)
  = Some code_content.
Proof.
  unfold lookup_code, insert_or_replace. rewrite filter_app.
  assert (filter (λ row : string * string, row.1 = code_id)
            (filter (λ row : string * string, row.1 ≠ code_id) table) = [])
    as ->.
  { induction table as [|row table IH]; [done|].
    rewrite (filter_cons (λ row : string * string, row.1 ≠ code_id)).
    destruct (decide (row.1 ≠ code_id)); [|done].
    by rewrite filter_cons_False. }
  by rewrite filter_cons_True.
Qed.

Lemma lookup_code_insert_ne code_id other code_content table :
  other ≠ code_id →
  lookup_code other (insert_or_replace code_id code_content table)
  = lookup_code other table.
Proof.
  intros Hne. unfold lookup_code, insert_or_replace. rewrite filter_app.
  rewrite (filter_cons_False _ (code_id, code_content)) by (cbn; congruence).
  rewrite filter_nil, app_nil_r. f_equal. f_equal.
  induction table as [|row table IH]; [done|].
  rewrite (filter_cons (λ row : string * string, row.1 ≠ code_id)).
  destruct (decide (row.1 ≠ code_id)) as [Hrow|Hrow].
  - rewrite !(filter_cons _ row).
    destruct (decide (row.1 = other)); [f_equal|]; exact IH.
  - rewrite (filter_cons_False _ row); [done|].
    intros E. apply Hrow. congruence.
Qed.

(** Storing what an id holds already leaves every id with what it held. *)
Lemma lookup_code_insert_same code_id code_content table k :
  lookup_code code_id table = Some code_content →
  lookup_code k (insert_or_replace code_id code_content table)
  = lookup_code k table.
Proof.
  intros Hin. destruct (decide (k = code_id)) as [->|Hne].
  - by rewrite lookup_code_insert.
  - by apply lookup_code_insert_ne.
Qed.

(** When its content can be encoded and its calls to [sqlite3] go through,
    [store_code] returns. *)
Lemma store_code_run code_content encoded st w :
  str_encode ext code_content = Returns encoded →
  let code_id := sha256_hexdigest ext encoded in
  sqlite_calls ext (store_session code_id code_content ++ [Sq_close])
    (world st) = (Returns tt, w) →
  store_code ext (VStr code_content) st
  = (Returns (VStr ("Code stored with ID: " +:+ code_id)),
     set_world w
       (set_codes (insert_or_replace code_id code_content (codes st)) st)).
Proof.
  intros Henc code_id Hcalls.
  destruct (sqlite_calls_returns _ _ _ _ Hcalls) as (w1 & H1 & H2).
  unfold store_code. rewrite bind_of_outcome, Henc. fold code_id.
  rewrite bind_effect, H1, bind_modify, bind_effect. simpl_state.
  by rewrite H2.
Qed.

(** C3: the id that [store_code] reports is the digest of the encoded
    content and of nothing else. Where the content can be encoded and the
    calls to [sqlite3] go through, the store returns that id, the row is
    the last of the table and nothing else of the state has changed but
    the outside world; the same content stored again, in whatever
    state holds it already, gives the same id and leaves every id with the
    content it had (the row itself moves to the end of the table); and a
    different content that does not collide with the first gets a different
    id, is stored under it, and leaves the first in place. *)
Theorem store_code_is_content_addressed c1 b1 st w1 :
  str_encode ext c1 = Returns b1 →
  let id1 := sha256_hexdigest ext b1 in
  let stored id := Returns (VStr ("Code stored with ID: " +:+ id)) in
  sqlite_calls ext (store_session id1 c1 ++ [Sq_close]) (world st)
  = (Returns tt, w1) →
  let r1 := store_code ext (VStr c1) st in
  r1.1 = stored id1 ∧
  r1.2 = {| progress := progress st;
            codes := filter (λ row, row.1 ≠ id1) (codes st) ++ [(id1, c1)];
            world := w1; trace := trace st; history_dict := history_dict st;
            messages := messages st; output := output st;
            iteration := iteration st |} ∧
  lookup_code id1 (codes r1.2) = Some c1 ∧
  (∀ s w,
     lookup_code id1 (codes s) = Some c1 →
     sqlite_calls ext (store_session id1 c1 ++ [Sq_close]) (world s)
     = (Returns tt, w) →
     let r := store_code ext (VStr c1) s in
     r.1 = stored id1 ∧
     (∀ k, lookup_code k (codes r.2) = lookup_code k (codes s)) ∧
     last (codes r.2) = Some (id1, c1)) ∧
  (∀ c2 b2 w2,
     str_encode ext c2 = Returns b2 →
     let id2 := sha256_hexdigest ext b2 in
     sqlite_calls ext (store_session id2 c2 ++ [Sq_close]) (world r1.2)
     = (Returns tt, w2) →
     c2 ≠ c1 → no_collision ext c1 c2 →
     let r2 := store_code ext (VStr c2) r1.2 in
     id2 ≠ id1 ∧ r2.1 = stored id2 ∧ r2.1 ≠ r1.1 ∧
     lookup_code id1 (codes r2.2) = Some c1 ∧
     lookup_code id2 (codes r2.2) = Some c2).
Proof.
  intros Henc id1 stored Hcalls r1. subst r1.
  rewrite (store_code_run c1 b1 st w1 Henc Hcalls). cbn [fst snd].
  simpl_state. fold id1. split_and!.
  - done.
  - done.
  - apply lookup_code_insert.
  - intros s w Hheld Hs. cbn zeta.
    rewrite (store_code_run c1 b1 s w Henc Hs). cbn [fst snd]. simpl_state.
    fold id1. split_and!; [done| |].
    + intros k. by apply lookup_code_insert_same.
    + unfold insert_or_replace. by rewrite last_snoc.
  - intros c2 b2 w2 Henc2 Hcalls2 Hne Hfree.
    set (id2 := sha256_hexdigest ext b2) in *.
    assert (id2 ≠ id1) as Hid.
    { intros E. apply Hne. symmetry. by apply (Hfree b1 b2). }
    match goal with
    | |- context [store_code ext (VStr c2) ?s] =>
        rewrite (store_code_run c2 b2 s w2 Henc2 Hcalls2)
    end.
    cbn [fst snd].
    simpl_state. fold id1 id2. split_and!; [done|done| | |].
    + intros [= E]. by apply append_inj_r in E.
    + rewrite lookup_code_insert_ne by done. apply lookup_code_insert.
    + apply lookup_code_insert.
Qed.
End CodeStore.

(** ** The completion signal *)

Section Completion.
Context {W : Type} (ext : Externals W).
Implicit Type st : RunState W.

Lemma registry_task_completed :
  available_functions !! "task_completed" = Some Tool_task_completed.
Proof. by vm_compute. Qed.

(** A capability is entered once, after its keywords were bound. *)
Lemma call_function_calls function_name function_to_call function_args st :
  let r := call_function ext function_name function_to_call function_args st in
  match bind_kwargs ext function_name (parameters function_to_call)
                    function_args with
  | Returns _ =>
      capability_calls (trace r.2)
      = capability_calls (trace st) ++ [(function_name, function_args)]
  | Raises e => r = (Raises e, st)
  end.
Proof.
  cbn zeta. unfold call_function.
  rewrite bind_of_outcome.
  destruct (bind_kwargs _ _ _ _) as [kw|e]; [|done].
  rewrite bind_emit.
  match goal with
  | |- context [capability_calls (trace (?body ?s).2)] =>
      assert (steps (same_on beyond_body) body) as Hb
        by (destruct function_to_call; steps_with leaf_same);
      specialize (Hb s); unfold same_on, beyond_body in Hb;
      apply (f_equal snd) in Hb; cbn [snd] in Hb; rewrite Hb
  end.
  unfold capability_calls. cbn. by rewrite omap_app.
Qed.

(** A call of [task_completed] that returns had no keyword at all. *)
Lemma task_completed_keywords function_name function_args kw :
  bind_kwargs ext function_name [] function_args = Returns kw →
  function_args = VDict [].
Proof.
  unfold bind_kwargs. destruct function_args as [| | | | | |entries]; try done.
  destruct entries as [|[k v] entries]; [done|]. cbn.
  rewrite bool_decide_eq_false_2; [done|]. apply not_elem_of_nil.
Qed.

(** One tool call: it raises nothing; when it returns from the run it was
    a call of [task_completed], the last capability entered, and the
    terminal state of [progress] and the log are written. *)
Lemma dispatch_tool_call_spec tool_call st :
  let r := dispatch_tool_call ext tool_call st in
  match r.1 with
  | Returns None => persisted (trace r.2) = persisted (trace st)
  | Returns (Some out) =>
      persisted (trace r.2) = persisted (trace st) ++ [history_dict r.2] ∧
      p_status (progress r.2) = "completed" ∧
      p_completed (progress r.2) = true ∧
      p_iteration (progress r.2) = p_iteration (progress st) ∧
      last (capability_calls (trace r.2)) = Some ("task_completed", VDict [])
  | Raises _ => False
  end.
Proof.
  cbn zeta. rewrite dispatch_tool_call_unfold.
  destruct (available_functions !! tc_name tool_call) as [t|] eqn:Hreg;
    [|done].
  pose proof (execute_tool_call_beyond ext t tool_call st) as Hb.
  unfold same_on, beyond_tools in Hb.
  destruct (execute_tool_call ext t tool_call st) as [[v|e] st1] eqn:Hex;
    cbn [snd] in Hb;
    assert (persisted (trace st1) = persisted (trace st)) as Hp1
      by congruence;
    assert (p_iteration (progress st1) = p_iteration (progress st)) as Hi1
      by congruence;
    [|done].
  destruct (String.eqb (tc_name tool_call) "task_completed") eqn:Hn.
  - destruct (record_tool_result_completed ext tool_call v st1 Hn)
      as (out & st' & -> & _ & Hs & Hc & Hi & Hcalls & _ & Hp & _).
    cbn [fst snd]. split_and!; [congruence|done|done|congruence|].
    rewrite Hcalls. apply String.eqb_eq in Hn.
    rewrite Hn, registry_task_completed in Hreg. injection Hreg as <-.
    unfold execute_tool_call in Hex. rewrite bind_of_outcome in Hex.
    destruct (json_loads ext (tc_arguments tool_call)) as [args|]; [|done].
    pose proof (call_function_calls (tc_name tool_call) Tool_task_completed
                  args st) as Hcall.
    cbn zeta in Hcall. rewrite Hex in Hcall. cbn [parameters] in Hcall.
    destruct (bind_kwargs _ _ _ _) as [kw|] eqn:Hkw; [|done].
    apply task_completed_keywords in Hkw as ->.
    cbn [snd] in Hcall. by rewrite Hcall, Hn, last_snoc.
  - destruct (record_tool_result_other ext tool_call v st1 Hn)
      as (st' & -> & _ & Ht & _).
    cbn [fst snd]. rewrite Ht. congruence.
Qed.

(** A batch: it raises nothing, and returns from the run only through a
    call of [task_completed], after which nothing more is entered. *)
Lemma dispatch_spec tool_calls st :
  let r := dispatch ext tool_calls st in
  match r.1 with
  | Returns None => persisted (trace r.2) = persisted (trace st)
  | Returns (Some out) =>
      persisted (trace r.2) = persisted (trace st) ++ [history_dict r.2] ∧
      p_status (progress r.2) = "completed" ∧
      p_completed (progress r.2) = true ∧
      last (capability_calls (trace r.2)) = Some ("task_completed", VDict [])
  | Raises _ => False
  end.
Proof.
  cbn zeta. revert st. induction tool_calls as [|tc rest IH]; intros st.
  - done.
  - cbn [dispatch]. unfold bind.
    pose proof (dispatch_tool_call_spec tc st) as H1. cbn zeta in H1.
    destruct (dispatch_tool_call ext tc st) as [[[out|]|e] st1];
      cbn [fst snd ret] in H1 |- *; [tauto| |done].
    specialize (IH st1). rewrite H1 in IH. done.
Qed.
End Completion.

(** ** One pass of the loop *)

Ltac mrun :=
  repeat first [ progress simpl_state
               | rewrite bind_assoc | rewrite bind_ret | rewrite bind_gets
               | rewrite bind_modify | rewrite bind_emit ].

Ltac unfold_writes :=
  unfold append_error, append_llm_response, append_tool_result,
    current_iteration_update, append_output, append_message,
    increment_iteration, sleep, progress_output, progress_iteration,
    progress_status, progress_completed, write_progress.

Tactic Notation "simpl_trace" :=
  simpl_state;
  unfold persisted, gateway_calls, capability_calls, observations;
  rewrite ?omap_app; cbn [omap list_omap]; rewrite ?app_nil_r.
Tactic Notation "simpl_trace" "in" hyp(H) :=
  simpl_state in H;
  unfold persisted, gateway_calls, capability_calls, observations in H;
  rewrite ?omap_app in H; cbn [omap list_omap] in H; rewrite ?app_nil_r in H.

Section Pass.
Context {W : Type} (ext : Externals W).
Implicit Type st : RunState W.

Hint Resolve progress_status_completed_step progress_completed_step
  progress_output_step : steps.
Hint Resolve dispatch_beyond dispatch_history dispatch_run_step : steps.

Lemma second_completion_beyond :
  steps (same_on beyond_followup) (second_completion ext).
Proof. steps_with leaf_same. Qed.

Lemma pass_try_history : steps history_kept (pass_try ext).
Proof. steps_with leaf_history. Qed.

Lemma pass_try_run_step : steps run_step (pass_try ext).
Proof. steps_with leaf_run_step. Qed.

(** How the [try] block leaves the count of passes and the log, by the way
    control leaves it. *)
Lemma pass_try_spec st :
  let r := pass_try ext st in
  match r.1 with
  | Returns Continue =>
      iteration r.2 = iteration st + 1 ∧
      persisted (trace r.2) = persisted (trace st) ++ [history_dict r.2]
  | Returns (Return out) =>
      iteration r.2 = iteration st ∧
      persisted (trace r.2) = persisted (trace st) ++ [history_dict r.2]
  | _ =>
      iteration r.2 = iteration st ∧
      persisted (trace r.2) = persisted (trace st)
  end.
Proof.
  cbn zeta. unfold pass_try. mrun. rewrite bind_effect. simpl_state.
  destruct (completion ext (messages st) true (world st)) as [[response|e] w].
  2: { cbn. simpl_trace. done. }
  rewrite bind_of_outcome. unfold first_choice.
  destruct (resp_choices response) as [|[m|] cs].
  { cbn. simpl_trace. done. }
  - unfold_writes. mrun.
    destruct (msg_tool_calls m) as [|tc tcs].
    + mrun. cbn. simpl_trace. done.
    + mrun.
      match goal with
      | |- context [bind (dispatch ext ?l) _ ?s] =>
          pose proof (dispatch_spec ext l s) as Hd;
          pose proof (dispatch_beyond ext l s) as Hb;
          destruct (dispatch ext l s) as [[[out|]|e] st1] eqn:Ed
      end; cbn zeta in Hd; cbn [fst snd] in Hd, Hb; [| |done];
        unfold same_on, beyond_dispatch in Hb; injection Hb as Hi _;
        simpl_trace in Hd; simpl_state in Hi.
      * erewrite bind_returns by exact Ed. cbn [fst snd ret].
        destruct Hd as (Hd & _). by simpl_trace.
      * erewrite bind_returns by exact Ed.
        pose proof (second_completion_beyond st1) as Hs.
        unfold same_on, beyond_followup in Hs.
        destruct (second_completion ext st1) as [[[]|e] st2] eqn:Es;
          cbn [fst snd] in Hs; injection Hs as Hi2 Hp2 _;
          simpl_trace in Hp2.
        -- erewrite bind_returns by exact Es. unfold_writes. mrun.
           cbn [fst snd ret]. simpl_trace. split; congruence.
        -- erewrite bind_raises by exact Es. cbn [fst snd].
           simpl_trace. split; congruence.
  - unfold_writes. mrun.
    match goal with
    | |- context [bind (log_to_file ext ?h) _ ?s] =>
        destruct (dump_log ext h (world s)) as [o w'] eqn:E;
        erewrite (bind_returns (log_to_file ext h))
          by (eapply log_to_file_run; exact E)
    end.
    mrun. cbn [fst snd ret]. simpl_state. simpl_trace. done.
Qed.

(** One pass: it raises nothing; it adds one record to the history, with
    the number of the pass, and leaves the earlier records as they were; it
    hands the history to [log_to_file] once, as the pass leaves it; and
    when the loop goes on, the count of passes has advanced by one. *)
Lemma loop_pass_spec st :
  let r := loop_pass ext st in
  (∃ o, r.1 = Returns o ∧ (o = None → iteration r.2 = iteration st + 1)) ∧
  length (history_dict r.2) = S (length (history_dict st)) ∧
  rec_iteration <$> history_dict r.2
  = (rec_iteration <$> history_dict st) ++ [iteration st + 1] ∧
  take (length (history_dict st)) (history_dict r.2) = history_dict st ∧
  persisted (trace r.2) = persisted (trace st) ++ [history_dict r.2].
Proof.
  cbn zeta. unfold loop_pass. unfold_writes. mrun.
  match goal with
  | |- context [bind (try_except (pass_try ext) ?h) ?k ?s] =>
      set (st1 := s);
      assert (steps history_kept (bind (try_except (pass_try ext) h) k)) as Hk
        by steps_with leaf_history;
      specialize (Hk st1)
  end.
  destruct Hk as (Hlen & Hidx & Htake).
  assert (history_dict st1 = history_dict st ++ [new_iteration (iteration st)])
    as Hh1 by done.
  rewrite Hh1 in Hlen, Hidx, Htake.
  rewrite length_app, Nat.add_1_r in Hlen, Htake. cbn [pred] in Htake.
  rewrite fmap_app in Hidx. rewrite take_app_length in Htake.
  pose proof (pass_try_spec st1) as Hp. cbn zeta in Hp.
  assert (iteration st1 = iteration st) as Hi1 by done.
  assert (persisted (trace st1) = persisted (trace st)) as Hp1
    by (subst st1; by simpl_trace).
  rewrite Hi1, Hp1 in Hp. clear Hi1 Hp1 Hh1.
  generalize dependent st1. intros st1.
  destruct (pass_try ext st1) as [[[ | |out]|e] st2] eqn:Ep;
    cbn [fst snd]; intros Hlen Hidx Htake (Hi & Hp).
  - (* the end of the try block is reached *)
    revert Hlen Hidx Htake.
    erewrite bind_returns by (by eapply try_returns). mrun.
    match goal with
    | |- context [bind (log_to_file ext ?h) _ ?s] =>
        destruct (dump_log ext h (world s)) as [o w'] eqn:E;
        erewrite (bind_returns (log_to_file ext h))
          by (eapply log_to_file_run; exact E)
    end.
    mrun. cbn [fst snd ret]. simpl_trace. intros Hlen Hidx Htake.
    split_and!; [eexists; split; [done|intros _; congruence]|done..| ].
    unfold persisted in Hp. by rewrite Hp.
  - (* continue *)
    revert Hlen Hidx Htake.
    erewrite bind_returns by (by eapply try_returns). cbn [fst snd ret].
    intros Hlen Hidx Htake.
    split_and!; [eexists; split; [done|intros _; congruence]|done..].
  - (* return output *)
    revert Hlen Hidx Htake.
    erewrite bind_returns by (by eapply try_returns). cbn [fst snd ret].
    intros Hlen Hidx Htake.
    split_and!; [eexists; split; [done|done]|done..].
  - (* an exception reaches the handler of the pass *)
    revert Hlen Hidx Htake.
    erewrite bind_returns
      by (erewrite try_raises by exact Ep; unfold_writes; by mrun).
    mrun.
    match goal with
    | |- context [bind (log_to_file ext ?h) _ ?s] =>
        destruct (dump_log ext h (world s)) as [o w'] eqn:E;
        erewrite (bind_returns (log_to_file ext h))
          by (eapply log_to_file_run; exact E)
    end.
    mrun. cbn [fst snd ret]. simpl_trace. intros Hlen Hidx Htake.
    split_and!; [eexists; split; [done|intros _; congruence]|done..| ].
    unfold persisted in Hp. by rewrite Hp.
Qed.
End Pass.

(** ** The loop *)

Section Loop.
Context {W : Type} (ext : Externals W).
Implicit Type st : RunState W.

Hint Resolve progress_status_completed_step progress_completed_step
  progress_output_step : steps.
Hint Resolve dispatch_beyond dispatch_history dispatch_run_step : steps.
Hint Resolve pass_try_run_step : steps.

(** What a pass shows in [progress] is a [progress_step], as long as the
    loop test held. *)
Lemma loop_pass_run_step st :
  iteration st + 1 ≤ p_max_iterations (progress st) →
  run_step st (loop_pass ext st).2.
Proof.
  intros Hle. unfold loop_pass, progress_iteration, write_progress. mrun.
  match goal with
  | |- run_step _ (bind ?m ?k ?s).2 =>
      assert (steps run_step (bind m k)) as Hrest
        by steps_with leaf_run_step;
      trans s; [|apply Hrest]
  end.
  assert (progress_step (progress st)
            (mkProgress (p_status (progress st)) (iteration st + 1)
               (p_max_iterations (progress st)) (p_output (progress st))
               (p_completed (progress st)))) as Hp
    by (unfold progress_step; cbn; auto).
  split; [exact Hp|]. eexists. split; [reflexivity|].
  cbn. by constructor.
Qed.

Lemma while_loop_unfold fuel max_iterations st :
  while_loop ext fuel max_iterations st =
  if iteration st <? max_iterations then
    match fuel with
    | O => (Returns OutOfFuel, st)
    | S fuel' =>
        match loop_pass ext st with
        | (Returns (Some out), st') => (Returns (LoopReturn out), st')
        | (Returns None, st') => while_loop ext fuel' max_iterations st'
        | (Raises e, st') => (Raises e, st')
        end
    end
  else (Returns LoopEnd, st).
Proof.
  destruct fuel as [|fuel']; cbn [while_loop]; rewrite bind_gets;
    destruct (iteration st <? max_iterations); try done.
  unfold bind. by destruct (loop_pass ext st) as [[[out|]|e] st'].
Qed.

Lemma run_step_max st st' :
  run_step st st' →
  p_max_iterations (progress st') = p_max_iterations (progress st).
Proof. by intros [(Hm & _) _]. Qed.

Lemma while_loop_run_step fuel max_iterations st :
  p_max_iterations (progress st) = max_iterations →
  run_step st (while_loop ext fuel max_iterations st).2.
Proof.
  revert st. induction fuel as [|fuel IH]; intros st Hmax;
    rewrite while_loop_unfold;
    destruct (iteration st <? max_iterations) eqn:Hlt; try reflexivity.
  apply Z.ltb_lt in Hlt.
  pose proof (loop_pass_run_step st ltac:(lia)) as Hp.
  destruct (loop_pass ext st) as [[[out|]|e] st']; cbn [snd] in *; try done.
  etrans; [exact Hp|]. apply IH. apply run_step_max in Hp. congruence.
Qed.

(** The fuel that [run_main_loop] gives to its loop is enough. *)
Lemma while_loop_fuel fuel max_iterations st :
  max_iterations - iteration st ≤ Z.of_nat fuel →
  (while_loop ext fuel max_iterations st).1 ≠ Returns OutOfFuel.
Proof.
  revert st. induction fuel as [|fuel IH]; intros st Hfuel;
    rewrite while_loop_unfold;
    destruct (iteration st <? max_iterations) eqn:Hlt; try done.
  - apply Z.ltb_lt in Hlt. lia.
  - apply Z.ltb_lt in Hlt.
    destruct (loop_pass_spec ext st) as ((o & Ho & Hi) & _).
    destruct (loop_pass ext st) as [[[out|]|e] st']; cbn [fst snd] in *;
      try done.
    apply IH. rewrite Hi by congruence. lia.
Qed.

(** The loop raises nothing. *)
Lemma while_loop_returns fuel max_iterations st :
  ∃ exit, (while_loop ext fuel max_iterations st).1 = Returns exit.
Proof.
  revert st. induction fuel as [|fuel IH]; intros st;
    rewrite while_loop_unfold;
    destruct (iteration st <? max_iterations); try by eexists.
  destruct (loop_pass_spec ext st) as ((o & Ho & _) & _).
  destruct (loop_pass ext st) as [[[out|]|e] st']; cbn [fst] in *;
    [by eexists|apply IH|done].
Qed.

(** The loop of the program goes through the passes that [after_passes]
    counts. *)
Lemma while_loop_after_passes n fuel max_iterations st stn :
  after_passes ext n max_iterations st = Some stn →
  while_loop ext (n + fuel) max_iterations st
  = while_loop ext fuel max_iterations stn.
Proof.
  revert st. induction n as [|n IH]; intros st; cbn [after_passes].
  - by intros [= ->].
  - cbn [Nat.add]. rewrite (while_loop_unfold (S _)).
    destruct (iteration st <? max_iterations); [|done].
    destruct (loop_pass ext st) as [[[out|]|e] st']; try done. apply IH.
Qed.
End Loop.

(** ** The history *)

Section History.
Context {W : Type} (ext : Externals W).
Implicit Type st : RunState W.

(** A pass takes a history that counts [n] passes to one that counts
    [S n]. *)
Lemma counted_pass logged_before n st :
  counted logged_before n st → iteration st = Z.of_nat n →
  counted logged_before (S n) (loop_pass ext st).2.
Proof.
  intros (Hlen & Hidx & Hlog) Hi.
  destruct (loop_pass_spec ext st) as (_ & Hlen' & Hidx' & Htake & Hlog').
  set (st' := (loop_pass ext st).2) in *. unfold counted.
  rewrite Hlen in Hlen', Htake. split_and!.
  - done.
  - rewrite Hidx', Hidx, Hi, seq_S, fmap_app. cbn. do 3 f_equal. lia.
  - rewrite Hlog', Hlog, seq_S, fmap_app, <- app_assoc. cbn.
    f_equal. f_equal.
    + apply list_fmap_ext. intros i k Hk.
      apply lookup_seq in Hk as [-> Hk]. rewrite <- Htake.
      rewrite take_take. f_equal. lia.
    + f_equal. symmetry. apply take_ge. lia.
Qed.

Lemma counted_passes logged_before n max_iterations :
  ∀ k st stn,
    counted logged_before k st → iteration st = Z.of_nat k →
    after_passes ext n max_iterations st = Some stn →
    counted logged_before (k + n) stn ∧ iteration stn = Z.of_nat (k + n) ∧
    (n ≠ O → Z.of_nat (k + n) ≤ max_iterations).
Proof.
  induction n as [|n IH]; intros k st stn Hc Hi; cbn [after_passes].
  - intros [= <-]. rewrite Nat.add_0_r. done.
  - destruct (iteration st <? max_iterations) eqn:Hlt; [|done].
    apply Z.ltb_lt in Hlt.
    pose proof (counted_pass _ _ _ Hc Hi) as Hc'.
    destruct (loop_pass_spec ext st) as ((o & Ho & Hi') & _).
    destruct (loop_pass ext st) as [[[out|]|e] st']; try done.
    cbn [fst snd] in *. intros Hn.
    specialize (Hi' ltac:(congruence)).
    destruct (IH (S k) st' stn Hc' ltac:(lia) Hn) as (Hcn & Hin & Hmax).
    replace (k + S n)%nat with (S k + n)%nat by lia.
    split_and!; [done..|]. intros _.
    destruct n as [|n']; [|by apply Hmax].
    rewrite Nat.add_0_r. lia.
Qed.

(** C7: after [n] passes of a run's loop the history has exactly [n]
    records, numbered 1 to [n]; each pass handed the whole history to
    [log_to_file], whatever the pass produced; and the history is never
    longer than [max_iterations]. The same holds once one more pass has
    run, however it ends (also by the [return] of the completion signal,
    or after an error only). *)
Theorem history_counts_passes n max_iterations st stn :
  0 ≤ max_iterations → iteration st = 0 → history_dict st = [] →
  after_passes ext n max_iterations st = Some stn →
  counted (persisted (trace st)) n stn ∧
  Z.of_nat (length (history_dict stn)) ≤ max_iterations ∧
  (iteration stn < max_iterations →
   let st' := (loop_pass ext stn).2 in
   counted (persisted (trace st)) (S n) st' ∧
   Z.of_nat (length (history_dict st')) ≤ max_iterations).
Proof.
  intros Hmax Hi Hh Hn.
  assert (counted (persisted (trace st)) 0 st) as Hc.
  { unfold counted. rewrite Hh. cbn. by rewrite app_nil_r. }
  destruct (counted_passes _ _ _ 0%nat st stn Hc Hi Hn) as (Hcn & Hin & Hle).
  cbn [Nat.add] in *. split_and!.
  - done.
  - destruct Hcn as (-> & _). destruct n; [done|]. by apply Hle.
  - intros Hlt. cbv zeta. pose proof (counted_pass _ _ _ Hcn Hin) as Hc'.
    split; [done|]. destruct Hc' as (Hl & _). rewrite Hl. lia.
Qed.
End History.

(** ** The run *)

Section Run.
Context {W : Type} (ext : Externals W).
Implicit Type st : RunState W.

Hint Resolve progress_status_completed_step progress_completed_step
  progress_output_step : steps.

(** The run whose precheck fails. *)
Lemma run_main_loop_unsupported user_input st :
  supports_function_calling ext (MODEL_NAME ext) = Returns false →
  let message := "Model does not support function calling." in
  let p1 := mkProgress "error" (p_iteration (progress st))
              (p_max_iterations (progress st)) (p_output (progress st))
              (p_completed (progress st)) in
  let p2 := mkProgress "error" (p_iteration (progress st))
              (p_max_iterations (progress st)) message
              (p_completed (progress st)) in
  let p3 := mkProgress "error" (p_iteration (progress st))
              (p_max_iterations (progress st)) message true in
  run_main_loop ext user_input st
  = (Returns (Some message),
     set_trace (trace st ++ [EvProgress p1; EvProgress p2; EvProgress p3])
       (set_progress p3 (set_history_dict [] st))).
Proof.
  intros Hsup. cbn zeta. unfold run_main_loop.
  rewrite bind_modify, bind_of_outcome, Hsup. cbn [negb].
  unfold_writes. mrun. cbn [ret]. by rewrite <- !app_assoc.
Qed.

(** The run whose precheck passes and whose instructions are read: it is
    the loop, entered in [loop_entry], and the lines that follow it. *)
Lemma run_main_loop_supported user_input st instructions :
  supports_function_calling ext (MODEL_NAME ext) = Returns true →
  open_read ext (VStr (BASE_DIR ext +:+ "/instructions.md")) (world st)
  = Returns instructions →
  let max_iterations := p_max_iterations (progress st) in
  run_main_loop ext user_input st
  = bind (while_loop ext (Z.to_nat max_iterations) max_iterations)
      (λ exit,
         match exit with
         | LoopReturn out => ret (Some out)
         | OutOfFuel => ret None
         | LoopEnd =>
             bind (gets iteration) (λ i,
             bind (if i >=? max_iterations then progress_status "completed"
                   else ret tt) (λ _,
             bind (progress_completed true) (λ _,
             bind (progress_status "completed") (λ _,
             bind (gets output) (λ out, ret (Some out))))))
         end)
      (loop_entry instructions user_input st).
Proof.
  intros Hsup Hread. cbn zeta. unfold run_main_loop.
  rewrite bind_modify, bind_of_outcome, Hsup. cbn [negb].
  rewrite bind_gets, bind_modify. unfold read_instructions.
  unfold bind at 1, observe. simpl_state. rewrite Hread.
  by rewrite !bind_modify.
Qed.

(** Unless the precheck fails, what the run shows in [progress] is a
    [progress_step]. *)
Lemma run_main_loop_run_step user_input st :
  supports_function_calling ext (MODEL_NAME ext) ≠ Returns false →
  run_step st (run_main_loop ext user_input st).2.
Proof.
  intros Hsup. unfold run_main_loop. rewrite bind_modify, bind_of_outcome.
  destruct (supports_function_calling ext (MODEL_NAME ext)) as [[]|e];
    [|done|by apply run_step_quiet]. clear Hsup. cbn [negb].
  rewrite bind_gets, bind_modify. simpl_state.
  match goal with
  | |- run_step _ (bind ?m ?k ?s).2 =>
      trans s; [by apply run_step_quiet|]; unfold bind at 1;
      destruct (m s) as [[instructions|e] s1] eqn:Er;
      [|unfold read_instructions, observe in Er; by injection Er as _ <-]
  end.
  unfold read_instructions, observe in Er. injection Er as _ <-.
  rewrite !bind_modify.
  match goal with
  | |- run_step _ (bind (while_loop ext ?f ?mx) ?k ?s).2 =>
      trans s; [by apply run_step_quiet|];
      pose proof (while_loop_run_step ext f mx s) as Hw;
      assert (∀ a, steps run_step (k a)) as Hk
        by (intros a; steps_with leaf_run_step);
      unfold bind at 1;
      destruct (while_loop ext f mx s) as [[exit|e] s2];
      cbn [snd] in Hw |- *; [|by apply Hw]
  end.
  etrans; [by apply Hw|]. apply Hk.
Qed.

(** The run does not run out of fuel. *)
Lemma run_main_loop_returns user_input st :
  (run_main_loop ext user_input st).1 ≠ Returns None.
Proof.
  destruct (supports_function_calling ext (MODEL_NAME ext)) as [[]|e] eqn:Hsup.
  - destruct (open_read ext (VStr (BASE_DIR ext +:+ "/instructions.md"))
                (world st)) as [instructions|e] eqn:Hread.
    + rewrite (run_main_loop_supported _ _ _ Hsup Hread). cbn zeta.
      set (st0 := loop_entry instructions user_input st).
      pose proof (while_loop_fuel ext (Z.to_nat (p_max_iterations (progress st)))
                    (p_max_iterations (progress st)) st0) as Hfuel.
      unfold bind at 1.
      destruct (while_loop ext _ _ st0) as [[[|out|]|e] st1];
        cbn [fst] in Hfuel; [| done | | done].
      * unfold_writes. mrun.
        destruct (_ >=? _); mrun; by cbn.
      * exfalso. apply Hfuel; [|done]. subst st0. cbn. lia.
    + unfold run_main_loop.
      rewrite bind_modify, bind_of_outcome, Hsup. cbn [negb].
      rewrite bind_gets, bind_modify. unfold read_instructions.
      unfold bind at 1, observe. simpl_state. by rewrite Hread.
  - by rewrite run_main_loop_unsupported.
  - unfold run_main_loop. by rewrite bind_modify, bind_of_outcome, Hsup.
Qed.

(** C2: in a run that finds the counter of [progress] at most
    [max_iterations], every state of [progress] that the run shows (one per
    write, [observations]), and the one it leaves, has
    [iteration] at most [max_iterations]. *)
Theorem progress_iteration_bounded user_input st :
  p_iteration (progress st) ≤ p_max_iterations (progress st) →
  let st' := (run_main_loop ext user_input st).2 in
  ∃ evs, trace st' = trace st ++ evs ∧
         Forall (λ p, p_iteration p ≤ p_max_iterations p) (observations evs) ∧
         p_iteration (progress st') ≤ p_max_iterations (progress st').
Proof.
  intros Hle. cbn zeta.
  assert (∀ p, progress_step (progress st) p →
               p_iteration p ≤ p_max_iterations p) as Hb.
  { intros p (Hm & _ & [Hi|Hi]); rewrite Hm; [by rewrite Hi|done]. }
  assert (supports_function_calling ext (MODEL_NAME ext) ≠ Returns false →
          ∃ evs, trace (run_main_loop ext user_input st).2 = trace st ++ evs ∧
                 Forall (λ p, p_iteration p ≤ p_max_iterations p)
                        (observations evs) ∧
                 p_iteration (progress (run_main_loop ext user_input st).2)
                 ≤ p_max_iterations
                     (progress (run_main_loop ext user_input st).2))
    as Hother.
  { intros Hsup.
    destruct (run_main_loop_run_step user_input st Hsup)
      as (Hp & evs & Ht & Hevs).
    exists evs. split_and!; [done| |by apply Hb].
    eapply Forall_impl; [exact Hevs|exact Hb]. }
  destruct (supports_function_calling ext (MODEL_NAME ext)) as [[]|e] eqn:Hsup;
    [by apply Hother| |by apply Hother].
  rewrite run_main_loop_unsupported by done. cbn [snd]. simpl_state.
  eexists. split; [reflexivity|]. split; [|done].
  cbn. repeat constructor; done.
Qed.

(** C8: when the model does not support function calling, the run returns
    before its loop: the history has no record, no gateway is called, no
    log is written, and [progress] ends with status ["error"] and
    [completed]. In every other run that does not find the status
    ["error"], no state of [progress] that the run shows or leaves has
    it. *)
Theorem only_the_precheck_reports_error user_input st :
  p_status (progress st) ≠ "error" →
  let r := run_main_loop ext user_input st in
  match supports_function_calling ext (MODEL_NAME ext) with
  | Returns false =>
      r.1 = Returns (Some "Model does not support function calling.") ∧
      history_dict r.2 = [] ∧
      gateway_calls (trace r.2) = gateway_calls (trace st) ∧
      capability_calls (trace r.2) = capability_calls (trace st) ∧
      persisted (trace r.2) = persisted (trace st) ∧
      p_status (progress r.2) = "error" ∧
      p_completed (progress r.2) = true
  | _ =>
      ∃ evs, trace r.2 = trace st ++ evs ∧
             Forall (λ p, p_status p ≠ "error") (observations evs) ∧
             p_status (progress r.2) ≠ "error"
  end.
Proof.
  intros Hst. cbn zeta.
  assert (∀ p, progress_step (progress st) p → p_status p ≠ "error") as Hb.
  { intros p (_ & [Hs|Hs] & _); rewrite Hs; done. }
  assert (supports_function_calling ext (MODEL_NAME ext) ≠ Returns false →
          ∃ evs, trace (run_main_loop ext user_input st).2 = trace st ++ evs ∧
                 Forall (λ p, p_status p ≠ "error") (observations evs) ∧
                 p_status (progress (run_main_loop ext user_input st).2)
                 ≠ "error") as Hother.
  { intros Hsup.
    destruct (run_main_loop_run_step user_input st Hsup)
      as (Hp & evs & Ht & Hevs).
    exists evs. split_and!; [done| |by apply Hb].
    eapply Forall_impl; [exact Hevs|exact Hb]. }
  destruct (supports_function_calling ext (MODEL_NAME ext)) as [[]|e] eqn:Hsup;
    [by apply Hother| |by apply Hother].
  rewrite run_main_loop_unsupported by done. cbn [fst snd]. simpl_trace.
  done.
Qed.
End Run.

(** ** The anomaly and the completion signal *)

Section Exits.
Context {W : Type} (ext : Externals W).
Implicit Type st : RunState W.

(** X21: a pass whose first gateway response has a first choice that
    carries no message does this and nothing else: it shows the
    number of the pass in [progress], calls the gateway once, adds to the
    history a record whose only content is one error entry with action
    [llm_completion], hands the history to [log_to_file], sleeps 5 seconds
    and advances the count of passes by one; the loop goes on. No content
    is captured, no tool is dispatched, no second call is made, and the
    conversation and the output are as before. *)
Theorem empty_response_costs_one_pass st response rest w o w' :
  completion ext (messages st) true (world st) = (Returns response, w) →
  resp_choices response = None :: rest →
  let entry :=
    {| err_action := "llm_completion";
       err_error := default "Unknown error" (resp_error response);
       err_traceback := None |} in
  let record :=
    {| rec_iteration := iteration st + 1; rec_actions := [];
       rec_llm_responses := []; rec_tool_results := [];
       rec_errors := [entry] |} in
  let history := history_dict st ++ [record] in
  let shown :=
    mkProgress (p_status (progress st)) (iteration st + 1)
               (p_max_iterations (progress st)) (p_output (progress st))
               (p_completed (progress st)) in
  dump_log ext history w = (o, w') →
  loop_pass ext st
  = (Returns None,
     {| progress := shown;
        codes := codes st;
        world := w';
        trace := trace st ++ [EvProgress shown;
                              EvCompletion (messages st) true;
                              EvLog history; EvSleep 5];
        history_dict := history;
        messages := messages st;
        output := output st;
        iteration := iteration st + 1 |}).
Proof.
  intros Hcall Hchoice entry record history shown Hlog.
  unfold loop_pass. unfold_writes. mrun.
  erewrite bind_returns; cycle 1.
  { eapply try_returns.
    unfold pass_try. mrun. rewrite bind_effect. simpl_state. rewrite Hcall.
    rewrite bind_of_outcome. unfold first_choice. rewrite Hchoice.
    unfold_writes. mrun. rewrite alter_last.
    erewrite (bind_returns (log_to_file ext _))
      by (eapply log_to_file_run; exact Hlog).
    mrun. reflexivity. }
  cbn [ret]. unfold set_iteration, set_trace, set_world. simpl_state.
  by rewrite <- !app_assoc.
Qed.

(** X12: a response with no choice at all does not reach the anomaly
    branch: line 436 raises [IndexError], which the handler of the pass
    records with action [main_loop]; the pass ends as any other (sleep of 2
    seconds). *)
Lemma response_without_choice st response w o w' :
  completion ext (messages st) true (world st) = (Returns response, w) →
  resp_choices response = [] →
  let e := mkExn "IndexError" "list index out of range" in
  let record :=
    {| rec_iteration := iteration st + 1; rec_actions := [];
       rec_llm_responses := []; rec_tool_results := [];
       rec_errors := [main_loop_error ext e] |} in
  let history := history_dict st ++ [record] in
  let shown :=
    mkProgress (p_status (progress st)) (iteration st + 1)
               (p_max_iterations (progress st)) (p_output (progress st))
               (p_completed (progress st)) in
  dump_log ext history w = (o, w') →
  loop_pass ext st
  = (Returns None,
     {| progress := shown;
        codes := codes st;
        world := w';
        trace := trace st ++ [EvProgress shown;
                              EvCompletion (messages st) true;
                              EvLog history; EvSleep 2];
        history_dict := history;
        messages := messages st;
        output := output st;
        iteration := iteration st + 1 |}).
Proof.
  intros Hcall Hchoice e record history shown Hlog.
  unfold loop_pass. unfold_writes. mrun.
  erewrite bind_returns; cycle 1.
  { erewrite try_raises; cycle 1.
    { unfold pass_try. mrun. rewrite bind_effect. simpl_state. rewrite Hcall.
      rewrite bind_of_outcome. unfold first_choice. rewrite Hchoice.
      reflexivity. }
    unfold_writes. mrun. rewrite alter_last. reflexivity. }
  mrun.
  erewrite (bind_returns (log_to_file ext _))
    by (eapply log_to_file_run; exact Hlog).
  mrun. cbn [ret]. unfold set_iteration, set_trace, set_world. simpl_state.
  by rewrite <- !app_assoc.
Qed.

(** A call of [task_completed] without keywords returns from the run. *)
Lemma dispatch_completion_signal tool_call st :
  tc_name tool_call = "task_completed" →
  json_loads ext (tc_arguments tool_call) = Returns (VDict []) →
  ∃ out, (dispatch_tool_call ext tool_call st).1 = Returns (Some out).
Proof.
  intros Hname Hargs. rewrite dispatch_tool_call_unfold.
  rewrite Hname, registry_task_completed.
  assert (∃ v st1, execute_tool_call ext Tool_task_completed tool_call st
                   = (Returns v, st1)) as (v & st1 & ->).
  { unfold execute_tool_call. rewrite bind_of_outcome, Hargs.
    unfold call_function. rewrite bind_of_outcome. cbn [parameters bind_kwargs].
    cbn [fmap list_fmap forallb andb]. rewrite bind_emit.
    unfold task_completed. unfold_writes. mrun. by eexists _, _. }
  destruct (record_tool_result_completed ext tool_call v st1) as
    (out & st' & -> & _); [by rewrite Hname|]. by exists out.
Qed.

(** The calls that follow the completion signal in a batch play no part. *)
Lemma dispatch_cut before tool_call after st :
  tc_name tool_call = "task_completed" →
  json_loads ext (tc_arguments tool_call) = Returns (VDict []) →
  dispatch ext (before ++ tool_call :: after) st
  = dispatch ext (before ++ [tool_call]) st ∧
  ∃ out, (dispatch ext (before ++ tool_call :: after) st).1
         = Returns (Some out).
Proof.
  intros Hname Hargs. revert st.
  induction before as [|tc before IH]; intros st; cbn [app dispatch].
  - destruct (dispatch_completion_signal tool_call st Hname Hargs)
      as (out & Hout).
    unfold bind. destruct (dispatch_tool_call ext tool_call st) as [o st'].
    cbn [fst] in Hout. subst o. split; [done|by exists out].
  - unfold bind. destruct (dispatch_tool_call_returns ext tc st) as [r Hr].
    destruct (dispatch_tool_call ext tc st) as [o st']. cbn [fst] in Hr.
    subst o. destruct r as [out|]; [split; [done|by exists out]|apply IH].
Qed.

(** C1: when the batch of a pass holds a call of [task_completed] that
    succeeds (its arguments parse to no keyword), the pass returns from
    [run_main_loop] and the loop ends there: the calls that follow it in
    the batch play no part, the last capability entered is
    [task_completed], the gateway was called once in the pass (no follow-up
    call), the history was logged as the pass leaves it, and [progress]
    shows the number of the pass with status ["completed"] and [completed]
    true. *)
Theorem completion_signal_ends_the_run
    st response rest m w before tool_call after fuel max_iterations :
  iteration st < max_iterations →
  completion ext (messages st) true (world st) = (Returns response, w) →
  resp_choices response = Some m :: rest →
  msg_tool_calls m = before ++ tool_call :: after →
  tc_name tool_call = "task_completed" →
  json_loads ext (tc_arguments tool_call) = Returns (VDict []) →
  ∃ out st',
    loop_pass ext st = (Returns (Some out), st') ∧
    while_loop ext (S fuel) max_iterations st = (Returns (LoopReturn out), st') ∧
    (∀ st1, dispatch ext (before ++ tool_call :: after) st1
            = dispatch ext (before ++ [tool_call]) st1) ∧
    last (capability_calls (trace st')) = Some ("task_completed", VDict []) ∧
    gateway_calls (trace st')
    = gateway_calls (trace st) ++ [(messages st, true)] ∧
    last (persisted (trace st')) = Some (history_dict st') ∧
    p_status (progress st') = "completed" ∧
    p_completed (progress st') = true ∧
    p_iteration (progress st') = iteration st + 1.
Proof.
  intros Hlt Hcall Hchoice Hcalls Hname Hargs.
  assert (∃ out st',
            loop_pass ext st = (Returns (Some out), st') ∧
            last (capability_calls (trace st'))
            = Some ("task_completed", VDict []) ∧
            gateway_calls (trace st')
            = gateway_calls (trace st) ++ [(messages st, true)] ∧
            last (persisted (trace st')) = Some (history_dict st') ∧
            p_status (progress st') = "completed" ∧
            p_completed (progress st') = true ∧
            p_iteration (progress st') = iteration st + 1)
    as (out & st' & Hpass & Hrest).
  { unfold loop_pass. unfold_writes. mrun.
    assert (∃ tc tcs, before ++ tool_call :: after = tc :: tcs)
      as (tc & tcs & Hcons) by (destruct before; by eexists _, _).
    match goal with
    | |- context [bind (try_except (pass_try ext) ?h) ?k ?s] =>
        assert (∃ s0, pass_try ext s
                      = bind (dispatch ext (before ++ tool_call :: after))
                          (λ r, match r with
                                | Some out => ret (Return out)
                                | None =>
                                    bind (second_completion ext) (λ _,
                                    bind (gets output) (λ out,
                                    bind (progress_output out) (λ _,
                                    ret Fallthrough)))
                                end) s0 ∧
                      gateway_calls (trace s0)
                      = gateway_calls (trace st) ++ [(messages st, true)] ∧
                      p_iteration (progress s0) = iteration st + 1)
          as (s0 & Htry & Hg0 & Hi0)
    end.
    { unfold pass_try. mrun. rewrite bind_effect. simpl_state. rewrite Hcall.
      rewrite bind_of_outcome. unfold first_choice. rewrite Hchoice.
      unfold_writes. mrun. rewrite Hcalls, Hcons. mrun.
      eexists. split; [reflexivity|]. by simpl_trace. }
    destruct (dispatch_cut before tool_call after s0 Hname Hargs)
      as (_ & out & Hout).
    pose proof (dispatch_spec ext (before ++ tool_call :: after) s0) as Hd.
    pose proof (dispatch_beyond ext (before ++ tool_call :: after) s0) as Hb.
    pose proof (dispatch_counter ext (before ++ tool_call :: after) s0) as Hc.
    cbn zeta in Hd. unfold same_on, beyond_dispatch, counter_shown in Hb, Hc.
    destruct (dispatch ext (before ++ tool_call :: after) s0) as [o st'] eqn:Ed.
    cbn [fst snd] in Hout, Hd, Hb, Hc. subst o.
    destruct Hd as (Hlog & Hs & Hdone & Hlast). injection Hb as _ Hg.
    exists out, st'. split.
    - erewrite bind_returns; cycle 1.
      { eapply try_returns. rewrite Htry.
        erewrite bind_returns by exact Ed. reflexivity. }
      done.
    - split_and!; [done|congruence| |done|done|congruence].
      by rewrite Hlog, last_snoc. }
  exists out, st'. split_and!; try tauto.
  - rewrite while_loop_unfold. apply Z.ltb_lt in Hlt. by rewrite Hlt, Hpass.
  - intros st1. by apply dispatch_cut.
Qed.
End Exits.

(** * The properties at work on the sample environment *)

Lemma log_to_file_swallows_witness :
  let ext := sample_externals script_anomaly true true in
  let st := sample_in_pass 3 in
  dump_log ext [sample_record] (world st)
  = (Raises (mkExn "OSError" "No space left on device"), O) ∧
  log_to_file ext [sample_record] st
  = (Returns tt,
     set_world O (set_trace (trace st ++ [EvLog [sample_record]]) st)).
Proof.
  split; [reflexivity|].
  exact (log_to_file_swallows (sample_externals script_anomaly true true)
           [sample_record] (sample_in_pass 3)).
Defined.

Lemma unregistered_tool_is_recorded_witness :
  let ext := sample_externals script_faults true false in
  let tool_call := mkToolCall "call_1" "delete_file" args_file in
  let r := dispatch_tool_call ext tool_call (sample_in_pass 3) in
  available_functions !! "delete_file" = None ∧
  r.1 = Returns None ∧
  history_dict r.2
  = [ {| rec_iteration := 1; rec_actions := []; rec_llm_responses := [""];
         rec_tool_results := [];
         rec_errors :=
           [ {| err_action := "tool_call_delete_file";
                err_error := "Tool 'delete_file' is not available.";
                err_traceback := Some "No traceback available." |} ] |} ].
Proof.
  split; [by vm_compute|]. cbv zeta.
  pose proof (unregistered_tool_is_recorded
                (sample_externals script_faults true false)
                (mkToolCall "call_1" "delete_file" args_file) []
                (sample_in_pass 3) [] sample_record
                ltac:(by vm_compute) eq_refl) as H.
  cbv zeta in H. destruct H as [H _]. rewrite H. split; reflexivity.
Defined.

Lemma tool_fault_is_recorded_witness :
  let ext := sample_externals script_faults true false in
  let tool_call := mkToolCall "call_3" "store_code" args_file in
  let e := mkExn "TypeError" "store_code() got unexpected arguments" in
  let r := dispatch_tool_call ext tool_call (sample_in_pass 3) in
  call_function ext "store_code" Tool_store_code
    (VDict [("path", VStr "a.txt"); ("content", VStr "hello")])
    (sample_in_pass 3)
  = (Raises e, sample_in_pass 3) ∧
  r.1 = Returns None ∧
  history_dict r.2
  = [ {| rec_iteration := 1; rec_actions := []; rec_llm_responses := [""];
         rec_tool_results := [];
         rec_errors :=
           [ {| err_action := "tool_call_store_code";
                err_error := "Error executing store_code: "
                             +:+ "store_code() got unexpected arguments";
                err_traceback := Some (format_exc ext e) |} ] |} ].
Proof.
  split; [by vm_compute|]. cbv zeta.
  unshelve epose proof
    (tool_fault_is_recorded
       (sample_externals script_faults true false)
       (mkToolCall "call_3" "store_code" args_file)
       Tool_store_code [] (sample_in_pass 3) [] sample_record
       (mkExn "TypeError" "store_code() got unexpected arguments")
       (sample_in_pass 3) _ _ _) as H.
  - by vm_compute.
  - reflexivity.
  - right. exists (VDict [("path", VStr "a.txt"); ("content", VStr "hello")]).
    split; by vm_compute.
  - cbv zeta in H. destruct H as [H _]. rewrite H. split; reflexivity.
Defined.

Lemma store_code_is_content_addressed_witness :
  let ext := sample_digest in
  let st := sample_in_pass 3 in
  let r1 := store_code ext (VStr "pass") st in
  let r2 := store_code ext (VStr "return 1") r1.2 in
  str_encode ext "pass" = Returns "pass" ∧
  sqlite_calls ext (store_session "pa" "pass" ++ [Sq_close]) (world st)
  = (Returns tt, O) ∧
  r1.1 = Returns (VStr "Code stored with ID: pa") ∧
  (store_code ext (VStr "pass") r2.2).1 = r1.1 ∧
  r2.1 = Returns (VStr "Code stored with ID: re") ∧
  lookup_code "pa" (codes r2.2) = Some "pass" ∧
  lookup_code "re" (codes r2.2) = Some "return 1".
Proof.
  pose proof (store_code_is_content_addressed sample_digest "pass" "pass"
                (sample_in_pass 3) O eq_refl eq_refl) as H.
  cbv zeta in H. destruct H as (H1 & _ & _ & Hagain & Hother).
  destruct (Hother "return 1" "return 1" O eq_refl eq_refl
              ltac:(discriminate)
              ltac:(by intros b1 b2 [= <-] [= <-] E))
    as (_ & H2 & _ & H3 & H4).
  destruct (Hagain
              (store_code sample_digest (VStr "return 1")
                 (store_code sample_digest (VStr "pass")
                    (sample_in_pass 3)).2).2
              O H3 eq_refl) as (H5 & _).
  cbv zeta.
  split_and!; [reflexivity|reflexivity|exact H1| |exact H2|exact H3|exact H4].
  by rewrite H5, H1.
Defined.

(** C6: the code at an empty response. When the first response has no
    choice at all, line 436 raises [IndexError] before the anomaly branch
    is reached: the record of the pass holds one error entry with action
    [main_loop], none with action [llm_completion], and the pass sleeps 2
    seconds, not 5. The count still advances by one and the loop goes
    on. *)
Lemma empty_choices_are_recorded_as_main_loop :
  let ext := sample_externals script_blank true false in
  let r := loop_pass ext (sample_entry 3) in
  r.1 = Returns None ∧
  history_dict r.2
  = [ {| rec_iteration := 1; rec_actions := []; rec_llm_responses := [];
         rec_tool_results := [];
         rec_errors :=
           [ {| err_action := "main_loop";
                err_error := "list index out of range";
                err_traceback :=
                  Some (format_exc ext
                          (mkExn "IndexError" "list index out of range"))
             |} ] |} ] ∧
  last (trace r.2) = Some (EvSleep 2) ∧
  iteration r.2 = 1.
Proof. by vm_compute. Qed.

Lemma empty_response_costs_one_pass_witness :
  let ext := sample_externals script_anomaly true false in
  let st := sample_entry 3 in
  let entry := mkError "llm_completion" "overloaded" None in
  let history := [mkRecord 1 [] [] [] [entry]] in
  let shown := mkProgress "running" 1 3 "" false in
  completion ext (messages st) true (world st)
  = (Returns (mkResponse [None] (Some "overloaded")), 1%nat) ∧
  loop_pass ext st
  = (Returns None,
     {| progress := shown; codes := []; world := 1%nat;
        trace := [EvProgress shown; EvCompletion (messages st) true;
                  EvLog history; EvSleep 5];
        history_dict := history; messages := messages st; output := "";
        iteration := 1 |}).
Proof.
  split; [reflexivity|].
  apply (empty_response_costs_one_pass
           (sample_externals script_anomaly true false) (sample_entry 3)
           (mkResponse [None] (Some "overloaded")) [] 1%nat
           (Returns tt) 1%nat); reflexivity.
Defined.

Lemma completion_signal_ends_the_run_witness :
  let ext := sample_externals script_complete true false in
  let st := sample_entry 3 in
  json_loads ext args_empty = Returns (VDict []) ∧
  ∃ out st',
    while_loop ext 3 3 st = (Returns (LoopReturn out), st') ∧
    capability_calls (trace st')
    = [("create_file",
        VDict [("path", VStr "a.txt"); ("content", VStr "hello")]);
       ("task_completed", VDict [])] ∧
    length (gateway_calls (trace st')) = 1%nat ∧
    p_status (progress st') = "completed" ∧
    p_completed (progress st') = true ∧
    p_iteration (progress st') = 1.
Proof.
  split; [reflexivity|].
  destruct (completion_signal_ends_the_run
              (sample_externals script_complete true false) (sample_entry 3)
              (mkResponse
                 [Some (mkLLMMessage None
                          [ mkToolCall "call_1" "create_file" args_file;
                            mkToolCall "call_2" "task_completed" args_empty;
                            mkToolCall "call_3" "store_code" args_code ])]
                 None)
              []
              (mkLLMMessage None
                 [ mkToolCall "call_1" "create_file" args_file;
                   mkToolCall "call_2" "task_completed" args_empty;
                   mkToolCall "call_3" "store_code" args_code ])
              1%nat
              [mkToolCall "call_1" "create_file" args_file]
              (mkToolCall "call_2" "task_completed" args_empty)
              [mkToolCall "call_3" "store_code" args_code]
              2%nat 3
              ltac:(reflexivity) ltac:(reflexivity) ltac:(reflexivity)
              ltac:(reflexivity) ltac:(reflexivity) ltac:(reflexivity))
    as (out & st' & Hpass & Hloop & _ & _ & Hg & _ & Hs & Hc & Hi).
  exists out, st'. split; [exact Hloop|].
  assert (while_loop (sample_externals script_complete true false) 3 3
            (sample_entry 3)
          = (Returns (LoopReturn out), st')) as E by exact Hloop.
  vm_compute in E. injection E as _ <-.
  repeat split; reflexivity.
Defined.

Lemma progress_iteration_bounded_witness :
  let ext := sample_externals script_faults true false in
  let st' := (run_main_loop ext "hi" (sample_start 2)).2 in
  p_iteration (progress (sample_start 2))
  ≤ p_max_iterations (progress (sample_start 2)) ∧
  ∃ evs, trace st' = trace (sample_start 2) ++ evs ∧
         Forall (λ p, p_iteration p ≤ p_max_iterations p) (observations evs) ∧
         p_iteration (progress st') ≤ p_max_iterations (progress st').
Proof.
  split; [by vm_compute|].
  apply (progress_iteration_bounded
           (sample_externals script_faults true false) "hi" (sample_start 2)).
  by vm_compute.
Defined.

Lemma history_counts_passes_witness :
  let ext := sample_externals script_faults true true in
  let st := sample_entry 2 in
  ∃ stn,
    after_passes ext 2 2 st = Some stn ∧
    counted (persisted (trace st)) 2 stn ∧
    Z.of_nat (length (history_dict stn)) ≤ 2.
Proof.
  cbv zeta.
  destruct (after_passes (sample_externals script_faults true true) 2 2
              (sample_entry 2)) as [stn|] eqn:E; [|by vm_compute in E].
  exists stn. split; [reflexivity|].
  destruct (history_counts_passes
              (sample_externals script_faults true true) 2 2
              (sample_entry 2) stn
              ltac:(by vm_compute) ltac:(reflexivity) ltac:(reflexivity) E)
    as (Hc & Hle & _).
  by split.
Defined.

Lemma only_the_precheck_reports_error_witness :
  let ext := sample_externals script_faults false false in
  let r := run_main_loop ext "hi" (sample_start 3) in
  p_status (progress (sample_start 3)) ≠ "error" ∧
  r.1 = Returns (Some "Model does not support function calling.") ∧
  history_dict r.2 = [] ∧
  gateway_calls (trace r.2) = gateway_calls (trace (sample_start 3)) ∧
  capability_calls (trace r.2) = capability_calls (trace (sample_start 3)) ∧
  persisted (trace r.2) = persisted (trace (sample_start 3)) ∧
  p_status (progress r.2) = "error" ∧
  p_completed (progress r.2) = true.
Proof.
  split; [discriminate|].
  exact (only_the_precheck_reports_error
           (sample_externals script_faults false false) "hi" (sample_start 3)
           ltac:(discriminate)).
Defined.

(** * Further properties of the capabilities *)

Section FileTools.
Context {W : Type} (ext : Externals W).
Implicit Type st : RunState W.

Lemma bind_observe {A B} (f : W → Outcome A) (k : A → M W B) st :
  bind (observe f) k st
  = match f (world st) with
    | Returns a => k a st
    | Raises e => (Raises e, st)
    end.
Proof. unfold bind, observe. by destruct (f (world st)). Qed.

(** X1: [create_file] raises only when the file was there already and the
    write over it failed: the exception it lets through is the one of the
    second [open]. Any other failure of the first write comes back as
    text. *)
Theorem create_file_raises_only_on_failed_overwrite path content st e' st' :
  create_file ext path content st = (Raises e', st') →
  ∃ e w,
    open_write ext Mode_x path content (world st) = (Raises e, w) ∧
    exn_class e = "FileExistsError" ∧
    open_write ext Mode_w path content w = (Raises e', world st') ∧
    st' = set_world (world st') st.
Proof.
  unfold create_file, try_except. rewrite bind_effect.
  destruct (open_write ext Mode_x path content (world st)) as [[[]|e] w] eqn:Ex;
    [done|].
  destruct (String.eqb (exn_class e) "FileExistsError") eqn:Hc; [|done].
  rewrite bind_effect. simpl_state.
  destruct (open_write ext Mode_w path content w) as [[[]|e2] w2] eqn:Ew;
    [done|].
  intros [= <- <-]. exists e, w. apply String.eqb_eq in Hc. by split_and!.
Qed.



End FileTools.

Lemma create_file_raises_only_on_failed_overwrite_witness :
  let e' := mkExn "PermissionError" "[Errno 13] Permission denied: 'a.txt'" in
  create_file sample_locked (VStr "a.txt") (VStr "hello") (sample_in_pass 3)
  = (Raises e', sample_in_pass 3) ∧
  ∃ e w,
    open_write sample_locked Mode_x (VStr "a.txt") (VStr "hello") O
    = (Raises e, w) ∧
    exn_class e = "FileExistsError".
Proof.
  split; [reflexivity|].
  destruct (create_file_raises_only_on_failed_overwrite sample_locked
              (VStr "a.txt") (VStr "hello") (sample_in_pass 3)
              (mkExn "PermissionError" "[Errno 13] Permission denied: 'a.txt'")
              (sample_in_pass 3) eq_refl) as (e & w & Hx & Hc & _).
  by exists e, w.
Defined.


Section StoreAndRetrieve.
Context {W : Type} (ext : Externals W).
Implicit Type st : RunState W.

(** When its calls to [sqlite3] go through, [retrieve_code] returns what
    the table holds under the id, or a text that says that it holds
    nothing. *)
Lemma retrieve_code_run code_id st w :
  sqlite_calls ext (select_session (VStr code_id) ++ [Sq_close]) (world st)
  = (Returns tt, w) →
  retrieve_code ext (VStr code_id) st
  = (Returns (VStr (default ("Code with ID " +:+ code_id +:+ " not found.")
                            (lookup_code code_id (codes st)))),
     set_world w st).
Proof.
  intros Hcalls.
  destruct (sqlite_calls_returns ext _ _ _ _ Hcalls) as (w1 & H1 & H2).
  unfold retrieve_code. rewrite bind_effect, H1, bind_gets, bind_of_outcome.
  cbn [select_code]. rewrite bind_effect. simpl_state. rewrite H2.
  destruct (lookup_code code_id (codes st)); cbn [ret default py_str];
    f_equal; by apply state_eq.
Qed.

(** What [retrieve_code] gives depends on the outside world and on what
    the table holds under the id. *)
Lemma retrieve_code_reads code_id st st' :
  world st' = world st →
  lookup_code code_id (codes st') = lookup_code code_id (codes st) →
  (retrieve_code ext (VStr code_id) st').1
  = (retrieve_code ext (VStr code_id) st).1.
Proof.
  intros Hw Hl. unfold retrieve_code. rewrite !bind_effect, Hw.
  destruct (sqlite_calls ext (select_session (VStr code_id)) (world st))
    as [[[]|e] w]; [|done].
  rewrite !bind_gets, !bind_of_outcome. cbn [select_code].
  rewrite !bind_effect. simpl_state. rewrite Hl.
  destruct (sqlite_calls ext [Sq_close] w) as [[[]|e] w']; [|done].
  by destruct (lookup_code code_id (codes st)).
Qed.

(** X5: round trip of the code store. Where the content can be encoded
    and the calls to [sqlite3] go through, [store_code] reports the digest
    of the encoded content as id, and [retrieve_code] with that id returns
    the content; and whatever the calls of that retrieval do, for any other
    id [retrieve_code] gives what it would have given in the same outside
    world before the store. *)
Theorem store_then_retrieve code_content encoded other st w1 w2 :
  str_encode ext code_content = Returns encoded →
  let code_id := sha256_hexdigest ext encoded in
  sqlite_calls ext (store_session code_id code_content ++ [Sq_close])
    (world st) = (Returns tt, w1) →
  sqlite_calls ext (select_session (VStr code_id) ++ [Sq_close]) w1
  = (Returns tt, w2) →
  other ≠ code_id →
  let r := store_code ext (VStr code_content) st in
  r.1 = Returns (VStr ("Code stored with ID: " +:+ code_id)) ∧
  retrieve_code ext (VStr code_id) r.2
  = (Returns (VStr code_content), set_world w2 r.2) ∧
  (retrieve_code ext (VStr other) r.2).1
  = (retrieve_code ext (VStr other) (set_world w1 st)).1.
Proof.
  intros Henc code_id Hstore Hselect Hne r. subst r.
  rewrite (store_code_run ext code_content encoded st w1 Henc Hstore).
  cbn [fst snd]. fold code_id. split_and!.
  - done.
  - erewrite retrieve_code_run by exact Hselect. simpl_state.
    by rewrite lookup_code_insert.
  - apply retrieve_code_reads; [done|]. simpl_state.
    by apply lookup_code_insert_ne.
Qed.

(** X6: where its calls to [sqlite3] go through, [retrieve_code] with an
    id under which the table holds nothing returns a text that says so, as
    an ordinary result, and changes nothing but the outside world; and
    storing a content whose id is another does not make it retrievable. *)
Theorem retrieve_unknown_id code_id st w :
  lookup_code code_id (codes st) = None →
  sqlite_calls ext (select_session (VStr code_id) ++ [Sq_close]) (world st)
  = (Returns tt, w) →
  let not_found :=
    Returns (VStr ("Code with ID " +:+ code_id +:+ " not found.")) in
  retrieve_code ext (VStr code_id) st = (not_found, set_world w st) ∧
  ∀ code_content encoded w1 w2,
    str_encode ext code_content = Returns encoded →
    code_id ≠ sha256_hexdigest ext encoded →
    sqlite_calls ext
      (store_session (sha256_hexdigest ext encoded) code_content
       ++ [Sq_close]) (world st) = (Returns tt, w1) →
    sqlite_calls ext (select_session (VStr code_id) ++ [Sq_close]) w1
    = (Returns tt, w2) →
    let st1 := (store_code ext (VStr code_content) st).2 in
    retrieve_code ext (VStr code_id) st1 = (not_found, set_world w2 st1).
Proof.
  intros Hnone Hselect. cbn zeta. split.
  - erewrite retrieve_code_run by exact Hselect. by rewrite Hnone.
  - intros code_content encoded w1 w2 Henc Hne Hstore Hselect1.
    rewrite (store_code_run ext code_content encoded st w1 Henc Hstore).
    cbn [snd]. erewrite retrieve_code_run by exact Hselect1. simpl_state.
    by rewrite lookup_code_insert_ne, Hnone.
Qed.

(** X7: [list_all_functions] raises only what one of its calls to
    [sqlite3] raises. Otherwise it returns and changes nothing but the
    outside world; it lists every stored row once, in the order of the
    table and under its id, also a row whose content [ast] cannot parse:
    that one is named [Unknown] and described by the parsing error, and the
    listing goes on. *)
Theorem list_all_functions_lists_every_row st :
  match sqlite_calls ext list_session (world st) with
  | (Raises e, w) => list_all_functions ext st = (Raises e, set_world w st)
  | (Returns _, w) =>
      ∃ rows,
        list_all_functions ext st = (Returns (VList rows), set_world w st) ∧
        length rows = length (codes st) ∧
        ∀ (i : nat) code_id code_content,
          codes st !! i = Some (code_id, code_content) →
          ∃ name description,
            rows !! i
            = Some (VDict [ ("code_id", VStr code_id);
                            ("function_name", VStr name);
                            ("function_description", VStr description) ]) ∧
            match ast_function_def ext code_content with
            | Raises e =>
                name = "Unknown" ∧
                description = "Parsing error: " +:+ exn_str e
            | Returns None =>
                name = "Unknown" ∧ description = "No description available"
            | Returns (Some (function_name, doc)) =>
                name = function_name ∧
                description = default "No description available" doc
            end
  end.
Proof.
  unfold list_all_functions. rewrite bind_effect.
  destruct (sqlite_calls ext list_session (world st)) as [[[]|e] w]; [|done].
  rewrite bind_gets. simpl_state. eexists. split; [reflexivity|].
  split; [by rewrite length_fmap|].
  intros i code_id code_content Hrow. rewrite list_lookup_fmap, Hrow.
  cbn [fmap option_fmap option_map describe_row].
  destruct (ast_function_def ext code_content) as [[[name [doc|]]|]|e];
    by eexists _, _.
Qed.
End StoreAndRetrieve.

Lemma store_then_retrieve_witness :
  let ext := sample_externals script_faults true false in
  let st1 := (store_code ext (VStr "pass") (sample_in_pass 3)).2 in
  str_encode ext "pass" = Returns "pass" ∧
  "return 1" ≠ sha256_hexdigest ext "pass" ∧
  retrieve_code ext (VStr "pass") st1 = (Returns (VStr "pass"), st1).
Proof.
  split; [reflexivity|]. split; [discriminate|].
  exact (proj1 (proj2 (store_then_retrieve
                         (sample_externals script_faults true false)
                         "pass" "pass" "return 1" (sample_in_pass 3) O O
                         eq_refl eq_refl eq_refl ltac:(discriminate)))).
Defined.

Lemma retrieve_unknown_id_witness :
  let ext := sample_externals script_faults true false in
  let st1 := (store_code ext (VStr "pass") (sample_in_pass 3)).2 in
  lookup_code "abc" (codes (sample_in_pass 3)) = None ∧
  retrieve_code ext (VStr "abc") st1
  = (Returns (VStr "Code with ID abc not found."), st1).
Proof.
  split; [reflexivity|].
  exact (proj2 (retrieve_unknown_id
                  (sample_externals script_faults true false)
                  "abc" (sample_in_pass 3) O eq_refl eq_refl)
           "pass" "pass" O O eq_refl ltac:(discriminate) eq_refl eq_refl).
Defined.

(** * Further properties of the dispatcher *)

Section DispatcherEdges.
Context {W : Type} (ext : Externals W).
Implicit Type st : RunState W.

Lemma registry_store_code :
  available_functions !! "store_code" = Some Tool_store_code.
Proof. by vm_compute. Qed.

(** A capability that takes no parameter accepts the empty dict only. *)
Lemma no_parameter_no_keyword function_name function_args :
  function_args ≠ VDict [] →
  bind_kwargs ext function_name [] function_args
  = Raises (call_error ext function_name function_args).
Proof.
  intros Hne. unfold bind_kwargs.
  destruct function_args as [| | | | | |entries]; try done.
  destruct entries as [|[k v] entries]; [done|]. cbn.
  rewrite bool_decide_eq_false_2; [done|]. apply not_elem_of_nil.
Qed.

(** A dispatched call that raises before the capability is entered. *)
Lemma dispatch_raising_call tool_call function_to_call st h cur e st1 :
  available_functions !! tc_name tool_call = Some function_to_call →
  execute_tool_call ext function_to_call tool_call st = (Raises e, st1) →
  history_dict st1 = h ++ [cur] →
  dispatch_tool_call ext tool_call st
  = (Returns None,
     set_history_dict
       (h ++ [add_error (tool_error_entry ext (tc_name tool_call) e) cur]) st1).
Proof.
  intros Hreg Hex Hh. rewrite dispatch_tool_call_unfold, Hreg, Hex.
  by erewrite append_error_run by exact Hh.
Qed.

(** X8: the completion signal called with any argument does not complete the
    run: [task_completed] takes no parameter, the call raises before the
    function is entered, [progress] stays as it is, and the dispatcher
    records the error and goes on. Only the arguments [{}] complete. *)
Theorem completion_signal_with_arguments_fails
    tool_call function_args st h cur :
  tc_name tool_call = "task_completed" →
  json_loads ext (tc_arguments tool_call) = Returns function_args →
  function_args ≠ VDict [] →
  history_dict st = h ++ [cur] →
  let e := call_error ext "task_completed" function_args in
  dispatch_tool_call ext tool_call st
  = (Returns None,
     set_history_dict
       (h ++ [add_error (tool_error_entry ext "task_completed" e) cur]) st).
Proof.
  intros Hname Hargs Hne Hh. cbn zeta.
  erewrite dispatch_raising_call
    with (function_to_call := Tool_task_completed) (h := h) (cur := cur);
    [by rewrite Hname|by rewrite Hname, registry_task_completed| |done].
  unfold execute_tool_call. rewrite bind_of_outcome, Hargs.
  unfold call_function. rewrite bind_of_outcome. cbn [parameters].
  by rewrite no_parameter_no_keyword, Hname.
Qed.

(** X9: [store_code] called with a content that is no text stores nothing: the
    missing [encode] raises inside the capability, the table is as before,
    and the dispatcher records the error and goes on. *)
Theorem store_code_rejects_non_text tool_call code_content st h cur :
  tc_name tool_call = "store_code" →
  json_loads ext (tc_arguments tool_call)
  = Returns (VDict [("code_content", code_content)]) →
  (∀ s, code_content ≠ VStr s) →
  history_dict st = h ++ [cur] →
  let function_args := VDict [("code_content", code_content)] in
  let e := attribute_error ext code_content "encode" in
  dispatch_tool_call ext tool_call st
  = (Returns None,
     set_history_dict
       (h ++ [add_error (tool_error_entry ext "store_code" e) cur])
       (set_trace (trace st ++ [EvCall "store_code" function_args]) st)).
Proof.
  intros Hname Hargs Hne Hh. cbn zeta.
  erewrite dispatch_raising_call
    with (function_to_call := Tool_store_code) (h := h) (cur := cur);
    [by rewrite Hname|by rewrite Hname, registry_store_code| |done].
  unfold execute_tool_call. rewrite bind_of_outcome, Hargs.
  unfold call_function. rewrite bind_of_outcome. cbn [parameters].
  assert (bind_kwargs ext (tc_name tool_call) ["code_content"]
            (VDict [("code_content", code_content)])
          = Returns (λ p, default VNone
                            (list_to_map (M:=gmap string pyval)
                               (reverse [("code_content", code_content)])
                             !! p))) as -> by done.
  rewrite bind_emit, Hname. cbn [reverse rev_append list_to_map foldr fst snd].
  rewrite lookup_insert_eq. cbn [default].
  destruct code_content; try done. by destruct (Hne s).
Qed.
End DispatcherEdges.

Lemma completion_signal_with_arguments_fails_witness :
  let ext := sample_externals script_faults true false in
  let tool_call := mkToolCall "call_9" "task_completed" args_code in
  VDict [("code_content", VStr "pass")] ≠ VDict [] ∧
  dispatch_tool_call ext tool_call (sample_in_pass 3)
  = (Returns None,
     set_history_dict
       [add_error
          (tool_error_entry ext "task_completed"
             (mkExn "TypeError" "task_completed() got unexpected arguments"))
          sample_record]
       (sample_in_pass 3)).
Proof.
  split; [discriminate|].
  exact (completion_signal_with_arguments_fails
           (sample_externals script_faults true false)
           (mkToolCall "call_9" "task_completed" args_code)
           (VDict [("code_content", VStr "pass")]) (sample_in_pass 3)
           [] sample_record eq_refl eq_refl ltac:(discriminate) eq_refl).
Defined.

Lemma store_code_rejects_non_text_witness :
  let tool_call := mkToolCall "call_9" "store_code" args_number in
  let st := (dispatch_tool_call sample_numbers tool_call (sample_in_pass 3)).2 in
  json_loads sample_numbers args_number
  = Returns (VDict [("code_content", VInt 5)]) ∧
  codes st = [] ∧
  (rec_errors <$> history_dict st)
  = [[tool_error_entry sample_numbers "store_code"
        (mkExn "AttributeError" "object has no attribute 'encode'")]].
Proof.
  split; [reflexivity|].
  rewrite (store_code_rejects_non_text sample_numbers
             (mkToolCall "call_9" "store_code" args_number) (VInt 5)
             (sample_in_pass 3) [] sample_record eq_refl eq_refl
             ltac:(discriminate) eq_refl).
  by split.
Defined.

(** * Further properties of a pass *)

Section PassEdges.
Context {W : Type} (ext : Externals W).
Implicit Type st : RunState W.

(** X10: a pass whose response is plain text (no tool call): the text is
    captured in the record and added to the output, the message joins the
    conversation, the output is shown in [progress], the history is logged,
    the pass sleeps 2 seconds and the count advances. There is no second
    gateway call and no capability is entered. *)
Theorem text_response_pass st response m rest w o w' :
  completion ext (messages st) true (world st) = (Returns response, w) →
  resp_choices response = Some m :: rest →
  msg_tool_calls m = [] →
  let content := default "" (msg_content m) in
  let record :=
    {| rec_iteration := iteration st + 1; rec_actions := [];
       rec_llm_responses := [content]; rec_tool_results := [];
       rec_errors := [] |} in
  let history := history_dict st ++ [record] in
  let out :=
    (output st +:+ nl +:+ "<h2>Iteration " +:+ pretty (iteration st + 1)
     +:+ ":</h2>" +:+ nl)
    +:+ "<strong>LLM Response:</strong>" +:+ nl +:+ "<p>" +:+ content
    +:+ "</p>" +:+ nl in
  let shown :=
    mkProgress (p_status (progress st)) (iteration st + 1)
               (p_max_iterations (progress st)) (p_output (progress st))
               (p_completed (progress st)) in
  let shown' :=
    mkProgress (p_status (progress st)) (iteration st + 1)
               (p_max_iterations (progress st)) out
               (p_completed (progress st)) in
  dump_log ext history w = (o, w') →
  loop_pass ext st
  = (Returns None,
     {| progress := shown';
        codes := codes st;
        world := w';
        trace := trace st ++ [EvProgress shown;
                              EvCompletion (messages st) true;
                              EvProgress shown'; EvLog history; EvSleep 2];
        history_dict := history;
        messages := messages st ++ [AssistantMsg m];
        output := out;
        iteration := iteration st + 1 |}).
Proof.
  intros Hcall Hchoice Hcalls content record history out shown shown' Hlog.
  unfold loop_pass. unfold_writes. mrun.
  erewrite bind_returns; cycle 1.
  { eapply try_returns.
    unfold pass_try. mrun. rewrite bind_effect. simpl_state. rewrite Hcall.
    rewrite bind_of_outcome. unfold first_choice. rewrite Hchoice.
    unfold_writes. mrun. rewrite Hcalls, alter_last. mrun. reflexivity. }
  mrun.
  erewrite (bind_returns (log_to_file ext _))
    by (eapply log_to_file_run; exact Hlog).
  mrun. cbn [ret]. f_equal.
  apply state_eq; simpl_state; try reflexivity. by rewrite <- !app_assoc.
Qed.

(** X11: a pass whose first gateway call raises: the exception stops at the
    handler of the pass, which records it with action [main_loop] and its
    traceback; the history is logged, the pass sleeps 2 seconds, the count
    advances and the loop goes on. The conversation and the output are as
    before. *)
Theorem gateway_exception_costs_one_pass st e w o w' :
  completion ext (messages st) true (world st) = (Raises e, w) →
  let entry :=
    {| err_action := "main_loop"; err_error := exn_str e;
       err_traceback := Some (format_exc ext e) |} in
  let record :=
    {| rec_iteration := iteration st + 1; rec_actions := [];
       rec_llm_responses := []; rec_tool_results := [];
       rec_errors := [entry] |} in
  let history := history_dict st ++ [record] in
  let shown :=
    mkProgress (p_status (progress st)) (iteration st + 1)
               (p_max_iterations (progress st)) (p_output (progress st))
               (p_completed (progress st)) in
  dump_log ext history w = (o, w') →
  loop_pass ext st
  = (Returns None,
     {| progress := shown;
        codes := codes st;
        world := w';
        trace := trace st ++ [EvProgress shown;
                              EvCompletion (messages st) true;
                              EvLog history; EvSleep 2];
        history_dict := history;
        messages := messages st;
        output := output st;
        iteration := iteration st + 1 |}).
Proof.
  intros Hcall entry record history shown Hlog.
  unfold loop_pass. unfold_writes. mrun.
  erewrite bind_returns; cycle 1.
  { erewrite try_raises; cycle 1.
    { unfold pass_try. mrun. rewrite bind_effect. simpl_state. rewrite Hcall.
      reflexivity. }
    unfold_writes. mrun. rewrite alter_last. reflexivity. }
  mrun.
  erewrite (bind_returns (log_to_file ext _))
    by (eapply log_to_file_run; exact Hlog).
  mrun. cbn [ret]. f_equal.
  apply state_eq; simpl_state; try reflexivity. by rewrite <- !app_assoc.
Qed.

(** X13: the follow-up call that brings no message, be it that the response has
    no choice at all or that its first choice has no message: one error
    entry with action [second_llm_completion] is recorded, nothing raises,
    and the conversation and the output are as before. *)
Theorem followup_without_message st response w h cur :
  completion ext (messages st) false (world st) = (Returns response, w) →
  resp_choices response = [] ∨ (∃ rest, resp_choices response = None :: rest) →
  history_dict st = h ++ [cur] →
  let entry :=
    {| err_action := "second_llm_completion";
       err_error := default "Unknown error in second LLM response."
                            (resp_error response);
       err_traceback := None |} in
  second_completion ext st
  = (Returns tt,
     set_history_dict (h ++ [add_error entry cur])
       (set_world w
          (set_trace (trace st ++ [EvCompletion (messages st) false]) st))).
Proof.
  intros Hcall Hchoice Hh. cbn zeta.
  unfold second_completion. mrun. rewrite bind_effect. simpl_state.
  rewrite Hcall.
  destruct Hchoice as [->|[rest ->]];
    unfold_writes; unfold modify; simpl_state; by rewrite Hh, alter_last.
Qed.

End PassEdges.

Lemma text_response_pass_witness :
  let ext := sample_externals text_reply_script true false in
  let st := sample_entry 1 in
  msg_tool_calls (mkLLMMessage (Some "done") []) = [] ∧
  (loop_pass ext st).1 = Returns None ∧
  history_dict (loop_pass ext st).2 = [mkRecord 1 [] ["done"] [] []] ∧
  messages (loop_pass ext st).2
  = messages st ++ [AssistantMsg (mkLLMMessage (Some "done") [])].
Proof.
  split; [reflexivity|].
  rewrite (text_response_pass
             (sample_externals text_reply_script true false) (sample_entry 1)
             (mkResponse [Some (mkLLMMessage (Some "done") [])] None)
             (mkLLMMessage (Some "done") []) [] 1%nat (Returns tt) 1%nat
             eq_refl eq_refl eq_refl eq_refl).
  by split_and!.
Defined.

Lemma gateway_exception_costs_one_pass_witness :
  let ext := sample_externals script_down true false in
  let st := sample_entry 3 in
  completion ext (messages st) true (world st)
  = (Raises (mkExn "APIConnectionError" "Connection error."), 1%nat) ∧
  (loop_pass ext st).1 = Returns None ∧
  (rec_errors <$> history_dict (loop_pass ext st).2)
  = [[main_loop_error ext (mkExn "APIConnectionError" "Connection error.")]] ∧
  iteration (loop_pass ext st).2 = 1.
Proof.
  split; [reflexivity|].
  rewrite (gateway_exception_costs_one_pass
             (sample_externals script_down true false) (sample_entry 3)
             (mkExn "APIConnectionError" "Connection error.") 1%nat
             (Returns tt) 1%nat eq_refl eq_refl).
  by split_and!.
Defined.

Lemma response_without_choice_witness :
  let ext := sample_externals script_blank true false in
  let st := sample_entry 3 in
  resp_choices (mkResponse [] None) = [] ∧
  (loop_pass ext st).1 = Returns None ∧
  (rec_errors <$> history_dict (loop_pass ext st).2)
  = [[main_loop_error ext (mkExn "IndexError" "list index out of range")]] ∧
  iteration (loop_pass ext st).2 = 1.
Proof.
  split; [reflexivity|].
  rewrite (response_without_choice
             (sample_externals script_blank true false) (sample_entry 3)
             (mkResponse [] None) 1%nat (Returns tt) 1%nat
             eq_refl eq_refl eq_refl).
  by split_and!.
Defined.

Lemma followup_without_message_witness :
  let ext := sample_externals script_blank true false in
  let st := sample_in_pass 3 in
  (second_completion ext st).1 = Returns tt ∧
  messages (second_completion ext st).2 = messages st ∧
  (rec_errors <$> history_dict (second_completion ext st).2)
  = [[mkError "second_llm_completion"
        "Unknown error in second LLM response." None]].
Proof.
  cbn zeta.
  rewrite (followup_without_message
             (sample_externals script_blank true false) (sample_in_pass 3)
             (mkResponse [] None) 1%nat [] sample_record
             eq_refl (or_introl eq_refl) eq_refl).
  by split_and!.
Defined.

(** * The conversation that the follow-up call sees *)

Section FollowUp.
Context {W : Type} (ext : Externals W).
Implicit Type st : RunState W.

Lemma tool_messages_of_batch tool_calls st :
  messages (dispatch ext tool_calls st).2
  = messages st ++ tool_replies ext tool_calls st.
Proof.
  revert st. induction tool_calls as [|tc rest IH]; intros st.
  - cbn. by rewrite app_nil_r.
  - cbn [dispatch tool_replies]. unfold bind.
    pose proof (tool_message_of_call ext tc st) as Hm.
    destruct (dispatch_tool_call_returns ext tc st) as [r Hr].
    destruct (dispatch_tool_call ext tc st) as [o st1]. cbn in Hm, Hr.
    subst o. destruct r as [out|]; cbn.
    + by rewrite app_nil_r.
    + by rewrite IH, Hm, app_assoc.
Qed.

(** The follow-up call is made with the conversation as it is then. *)
Lemma second_completion_calls st :
  gateway_calls (trace (second_completion ext st).2)
  = gateway_calls (trace st) ++ [(messages st, false)].
Proof.
  unfold second_completion. mrun. rewrite bind_effect. simpl_state.
  destruct (completion ext (messages st) false (world st)) as [[r|e] w];
    [|by simpl_trace].
  destruct (resp_choices r) as [|[m|] rest]; unfold_writes; mrun;
    unfold modify; by simpl_trace.
Qed.

(** X14: a pass with tool calls, none of which completes the run: the gateway
    is called twice, first with the conversation as the pass found it, then
    with that conversation, the message of the model, and the tool-role
    messages of the calls that returned ([tool_replies]); a failed call
    contributes nothing to what the model reads. *)
Theorem followup_reads_the_replies st response m rest w tc tcs s1 :
  completion ext (messages st) true (world st) = (Returns response, w) →
  resp_choices response = Some m :: rest →
  msg_tool_calls m = tc :: tcs →
  dispatch ext (tc :: tcs) (before_dispatch m w st) = (Returns None, s1) →
  (loop_pass ext st).1 = Returns None ∧
  gateway_calls (trace (loop_pass ext st).2)
  = gateway_calls (trace st)
    ++ [ (messages st, true);
         (messages st ++ [AssistantMsg m]
          ++ tool_replies ext (tc :: tcs) (before_dispatch m w st), false) ].
Proof.
  intros Hcall Hchoice Hcalls Hd.
  pose proof (tool_messages_of_batch (tc :: tcs) (before_dispatch m w st))
    as Hm.
  pose proof (dispatch_beyond ext (tc :: tcs) (before_dispatch m w st)) as Hb.
  rewrite Hd in Hm, Hb. cbn [snd] in Hm, Hb.
  unfold same_on, beyond_dispatch in Hb. injection Hb as _ Hg.
  pose proof (second_completion_calls s1) as Hs.
  rewrite Hg, Hm in Hs. cbn [before_dispatch trace messages] in Hs.
  revert Hs. simpl_trace. intros Hs.
  unfold loop_pass. unfold_writes. mrun.
  match goal with
  | |- context [bind (try_except (pass_try ext) ?h) ?k ?s] =>
      assert (pass_try ext s
              = bind (second_completion ext) (λ _,
                bind (gets output) (λ out,
                bind (progress_output out) (λ _, ret Fallthrough))) s1)
        as Htry
  end.
  { unfold pass_try. mrun. rewrite bind_effect. simpl_state. rewrite Hcall.
    rewrite bind_of_outcome. unfold first_choice. rewrite Hchoice.
    unfold_writes. mrun. rewrite Hcalls, alter_last. mrun.
    erewrite bind_returns; cycle 1.
    { rewrite <- Hd. f_equal. unfold before_dispatch.
      apply state_eq; simpl_state; try reflexivity.
      by rewrite <- !app_assoc. }
    reflexivity. }
  destruct (second_completion ext s1) as [[[]|e] s2] eqn:Es; cbn [snd] in Hs.
  - erewrite bind_returns; cycle 1.
    { eapply try_returns. rewrite Htry.
      erewrite bind_returns by exact Es. unfold_writes. mrun. reflexivity. }
    mrun.
    match goal with
    | |- context [bind (log_to_file ext ?hh) _ ?s] =>
        destruct (dump_log ext hh (world s)) as [o w'] eqn:E;
        erewrite (bind_returns (log_to_file ext hh))
          by (eapply log_to_file_run; exact E)
    end.
    mrun. cbn [fst snd ret]. simpl_trace. split; [done|].
    unfold gateway_calls in Hs. rewrite Hs. by rewrite <- !app_assoc.
  - erewrite bind_returns; cycle 1.
    { erewrite try_raises; cycle 1.
      { rewrite Htry. by erewrite bind_raises by exact Es. }
      unfold_writes. mrun. reflexivity. }
    mrun.
    match goal with
    | |- context [bind (log_to_file ext ?hh) _ ?s] =>
        destruct (dump_log ext hh (world s)) as [o w'] eqn:E;
        erewrite (bind_returns (log_to_file ext hh))
          by (eapply log_to_file_run; exact E)
    end.
    mrun. cbn [fst snd ret]. simpl_trace. split; [done|].
    unfold gateway_calls in Hs. rewrite Hs. by rewrite <- !app_assoc.
Qed.
End FollowUp.

Lemma followup_reads_the_replies_witness :
  let ext := sample_externals script_faults true false in
  let st := sample_entry 2 in
  let m := mkLLMMessage None faulty_batch in
  (dispatch ext faulty_batch (before_dispatch m 1%nat st)).1 = Returns None ∧
  gateway_calls (trace (loop_pass ext st).2)
  = [ (messages st, true);
      (messages st
       ++ [ AssistantMsg m;
            ToolMsg "call_4" "store_code" (VStr "Code stored with ID: pass") ],
       false) ].
Proof.
  split; [by vm_compute|].
  rewrite (proj2 (followup_reads_the_replies
                    (sample_externals script_faults true false)
                    (sample_entry 2)
                    (mkResponse [Some (mkLLMMessage None faulty_batch)] None)
                    (mkLLMMessage None faulty_batch) [] 1%nat
                    (mkToolCall "call_1" "delete_file" args_file)
                    [ mkToolCall "call_2" "store_code" "{oops";
                      mkToolCall "call_3" "store_code" args_file;
                      mkToolCall "call_4" "store_code" args_code ]
                    (dispatch (sample_externals script_faults true false)
                       faulty_batch
                       (before_dispatch (mkLLMMessage None faulty_batch)
                          1%nat (sample_entry 2))).2
                    eq_refl eq_refl eq_refl ltac:(by vm_compute))).
  by vm_compute.
Defined.

(** * The conversation over a run *)

Section Conversation.
Context {W : Type} (ext : Externals W).
Implicit Type st : RunState W.

#[export] Instance conversation_grows_preorder :
  PreOrder (conversation_grows (W:=W)).
Proof.
  split.
  - intros st. split; [done|]. exists []. by rewrite app_nil_r.
  - intros a b c (Hm & evs & Ht & Hc) (Hm' & evs' & Ht' & Hc'). split.
    + by etrans.
    + exists (evs ++ evs'). split; [by rewrite Ht', Ht, app_assoc|].
      unfold gateway_calls in *. rewrite omap_app. apply Forall_app.
      split; [done|]. eapply Forall_impl; [exact Hc'|].
      intros call Hcall. by etrans.
Qed.

Lemma grows_same st st' :
  messages st' = messages st → trace st' = trace st →
  conversation_grows st st'.
Proof.
  intros Hm Ht. split; [by rewrite Hm|]. exists []. by rewrite Ht, app_nil_r.
Qed.

Lemma grows_event st st' e :
  messages st' = messages st → trace st' = trace st ++ [e] →
  gateway_calls [e] = [] → conversation_grows st st'.
Proof.
  intros Hm Ht He. split; [by rewrite Hm|]. exists [e]. split; [done|].
  rewrite He. constructor.
Qed.

Lemma grows_message st st' m :
  messages st' = messages st ++ [m] → trace st' = trace st →
  conversation_grows st st'.
Proof.
  intros Hm Ht. split; [rewrite Hm; by apply prefix_app_r|].
  exists []. by rewrite Ht, app_nil_r.
Qed.

(** A gateway call is made with the conversation as it is. *)
Lemma grows_call {A} b (k : list ConvMsg → M W A) :
  (∀ msgs, steps conversation_grows (k msgs)) →
  steps conversation_grows
    (bind (gets messages)
       (λ msgs, bind (emit (EvCompletion msgs b)) (λ _, k msgs))).
Proof.
  intros Hk st. rewrite bind_gets, bind_emit. etrans; [|apply Hk].
  split; [done|]. exists [EvCompletion (messages st) b]. split; [done|].
  cbn. by repeat constructor.
Qed.
End Conversation.

Ltac leaf_grows :=
  first [ apply grows_same; reflexivity
        | eapply grows_event; reflexivity
        | eapply grows_message; reflexivity ].

Section ConversationOfTheRun.
Context {W : Type} (ext : Externals W).
Implicit Type st : RunState W.

Lemma dispatch_grows tool_calls :
  steps conversation_grows (dispatch ext tool_calls).
Proof. apply dispatch_steps; [apply _|]. intros tc. steps_with leaf_grows. Qed.

Lemma second_completion_grows :
  steps conversation_grows (second_completion ext).
Proof.
  unfold second_completion. apply grows_call. intros msgs.
  steps_with leaf_grows.
Qed.

Hint Resolve dispatch_grows second_completion_grows : steps.

Lemma pass_try_grows : steps conversation_grows (pass_try ext).
Proof.
  unfold pass_try. apply grows_call. intros msgs. steps_with leaf_grows.
Qed.

Hint Resolve pass_try_grows : steps.

Lemma loop_pass_grows : steps conversation_grows (loop_pass ext).
Proof. steps_with leaf_grows. Qed.

Lemma while_loop_grows fuel max_iterations :
  steps conversation_grows (while_loop ext fuel max_iterations).
Proof.
  induction fuel as [|fuel IH]; intros st; rewrite while_loop_unfold;
    destruct (iteration st <? max_iterations); try reflexivity.
  pose proof (loop_pass_grows st) as Hp.
  destruct (loop_pass ext st) as [[[out|]|e] st']; cbn [snd] in *; try done.
  etrans; [exact Hp|apply IH].
Qed.

Hint Resolve while_loop_grows : steps.

(** X15: the conversation of a run is append-only: it keeps the instructions,
    the request and the snapshot of the history at its head, and every
    gateway call of the run is made with a conversation that begins with
    them. *)
Theorem every_call_begins_with_the_request user_input st instructions :
  supports_function_calling ext (MODEL_NAME ext) = Returns true →
  open_read ext (VStr (BASE_DIR ext +:+ "/instructions.md")) (world st)
  = Returns instructions →
  let st' := (run_main_loop ext user_input st).2 in
  let seed := initial_messages instructions user_input in
  seed `prefix_of` messages st' ∧
  ∃ evs, trace st' = trace st ++ evs ∧
         Forall (λ call, seed `prefix_of` call.1) (gateway_calls evs).
Proof.
  intros Hsup Hread. cbn zeta.
  rewrite (run_main_loop_supported ext user_input st instructions Hsup Hread).
  cbn zeta.
  match goal with
  | |- context [bind ?m ?k (loop_entry ?i ?u ?s)] =>
      assert (steps conversation_grows (bind m k)) as Hrun
        by steps_with leaf_grows;
      specialize (Hrun (loop_entry i u s))
  end.
  exact Hrun.
Qed.

(** X16: when the instructions cannot be read, or the precheck itself raises,
    the exception leaves [run_main_loop]: no pass is made, nothing is
    logged, no gateway is called, and [progress] is not written at all, so
    that it never shows a terminal state for this run. *)
Theorem unreadable_instructions_abort_the_run user_input st e :
  (supports_function_calling ext (MODEL_NAME ext) = Returns true ∧
   open_read ext (VStr (BASE_DIR ext +:+ "/instructions.md")) (world st)
   = Raises e) ∨
  supports_function_calling ext (MODEL_NAME ext) = Raises e →
  ∃ st', run_main_loop ext user_input st = (Raises e, st') ∧
         progress st' = progress st ∧ trace st' = trace st ∧
         history_dict st' = [] ∧ world st' = world st.
Proof.
  intros [[Hsup Hread]|Hsup]; unfold run_main_loop;
    rewrite bind_modify, bind_of_outcome, Hsup.
  - cbn [negb]. rewrite bind_gets, bind_modify. unfold read_instructions.
    rewrite bind_observe. simpl_state. rewrite Hread. by eexists.
  - by eexists.
Qed.
End ConversationOfTheRun.

Lemma every_call_begins_with_the_request_witness :
  let ext := sample_externals script_faults true false in
  let st' := (run_main_loop ext "hi" (sample_start 2)).2 in
  let seed := initial_messages "Build the app." "hi" in
  supports_function_calling ext (MODEL_NAME ext) = Returns true ∧
  seed `prefix_of` messages st' ∧
  ∃ evs, trace st' = trace (sample_start 2) ++ evs ∧
         Forall (λ call, seed `prefix_of` call.1) (gateway_calls evs).
Proof.
  split; [reflexivity|].
  exact (every_call_begins_with_the_request
           (sample_externals script_faults true false) "hi" (sample_start 2)
           "Build the app." eq_refl eq_refl).
Defined.

Lemma unreadable_instructions_abort_the_run_witness :
  let e := mkExn "FileNotFoundError"
             "[Errno 2] No such file or directory: 'instructions.md'" in
  open_read sample_locked (VStr "/app/instructions.md") O = Raises e ∧
  ∃ st', run_main_loop sample_locked "hi" (sample_start 2) = (Raises e, st') ∧
         progress st' = progress (sample_start 2) ∧
         trace st' = trace (sample_start 2) ∧
         history_dict st' = [] ∧ world st' = world (sample_start 2).
Proof.
  split; [reflexivity|].
  exact (unreadable_instructions_abort_the_run sample_locked "hi"
           (sample_start 2)
           (mkExn "FileNotFoundError"
              "[Errno 2] No such file or directory: 'instructions.md'")
           (or_introl (conj eq_refl eq_refl))).
Defined.

(** * How a run ends *)

Section Terminal.
Context {W : Type} (ext : Externals W).
Implicit Type st : RunState W.

Lemma record_tool_result_output tool_call function_response st out st' :
  record_tool_result ext tool_call function_response st
  = (Returns (Some out), st') →
  output st' = out.
Proof.
  destruct (String.eqb (tc_name tool_call) "task_completed") eqn:Hn.
  - unfold record_tool_result, append_tool_result,
      current_iteration_update, append_output, append_message.
    rewrite !bind_modify, Hn. unfold_writes. mrun.
    match goal with
    | |- context [bind (log_to_file ext ?h) _ ?s] =>
        destruct (dump_log ext h (world s)) as [o w] eqn:E;
        erewrite (bind_returns (log_to_file ext h))
          by (eapply log_to_file_run; exact E)
    end.
    cbn [ret]. by intros [= <- <-].
  - by destruct (record_tool_result_other ext tool_call function_response
                   st Hn) as (s & -> & _).
Qed.

Lemma dispatch_tool_call_output tool_call st out st' :
  dispatch_tool_call ext tool_call st = (Returns (Some out), st') →
  output st' = out.
Proof.
  rewrite dispatch_tool_call_unfold.
  destruct (available_functions !! _) as [t|]; [|done].
  destruct (execute_tool_call _ _ _ _) as [[v|e] st1]; [|done].
  apply record_tool_result_output.
Qed.

Lemma dispatch_output tool_calls st out st' :
  dispatch ext tool_calls st = (Returns (Some out), st') → output st' = out.
Proof.
  revert st. induction tool_calls as [|tc rest IH]; intros st; [done|].
  cbn [dispatch]. unfold bind.
  destruct (dispatch_tool_call ext tc st) as [[[out0|]|e] st1] eqn:E;
    [|by apply IH|done].
  intros [= <- <-]. by eapply dispatch_tool_call_output.
Qed.

(** The [try] block leaves by [return] only out of the dispatcher. *)
Lemma pass_try_return st out st' :
  pass_try ext st = (Returns (Return out), st') →
  output st' = out ∧ p_status (progress st') = "completed" ∧
  p_completed (progress st') = true ∧
  last (capability_calls (trace st')) = Some ("task_completed", VDict []).
Proof.
  unfold pass_try. mrun. rewrite bind_effect. simpl_state.
  destruct (completion ext (messages st) true (world st)) as [[response|e] w];
    [|done].
  rewrite bind_of_outcome. unfold first_choice.
  destruct (resp_choices response) as [|[m|] cs]; [done| |].
  - unfold_writes. mrun.
    destruct (msg_tool_calls m) as [|tc tcs]; [by mrun|]. mrun.
    match goal with
    | |- context [bind (dispatch ext ?l) _ ?s] =>
        pose proof (dispatch_spec ext l s) as Hd;
        pose proof (dispatch_output l s) as Ho;
        destruct (dispatch ext l s) as [[[out0|]|e] st1] eqn:Ed
    end; cbn zeta in Hd; cbn [fst snd] in Hd; [| |done].
    + erewrite bind_returns by exact Ed. cbn [ret]. intros [= <- <-].
      destruct Hd as (_ & Hs & Hc & Hl). split_and!; try done.
      by apply Ho.
    + erewrite bind_returns by exact Ed.
      destruct (second_completion ext st1) as [[[]|e] st2] eqn:Es.
      * erewrite bind_returns by exact Es. unfold_writes. by mrun.
      * by erewrite bind_raises by exact Es.
  - unfold_writes. mrun.
    match goal with
    | |- context [bind (log_to_file ext ?h) _ ?s] =>
        destruct (dump_log ext h (world s)) as [o w'] eqn:E;
        erewrite (bind_returns (log_to_file ext h))
          by (eapply log_to_file_run; exact E)
    end.
    by mrun.
Qed.

(** A pass returns from the run only through the completion signal. *)
Lemma loop_pass_return st out st' :
  loop_pass ext st = (Returns (Some out), st') →
  output st' = out ∧ p_status (progress st') = "completed" ∧
  p_completed (progress st') = true ∧
  last (capability_calls (trace st')) = Some ("task_completed", VDict []) ∧
  iteration st' = iteration st.
Proof.
  unfold loop_pass. unfold_writes. mrun.
  match goal with
  | |- context [bind (try_except (pass_try ext) ?h) ?k ?s] =>
      pose proof (pass_try_return s) as Hr;
      pose proof (pass_try_spec ext s) as Hs;
      destruct (pass_try ext s) as [[[ | |out0]|e] s2] eqn:Ep
  end; cbn zeta in Hs; cbn [fst snd] in Hs; simpl_state in Hs.
  - erewrite bind_returns by (by eapply try_returns). mrun.
    match goal with
    | |- context [bind (log_to_file ext ?h) _ ?s] =>
        destruct (dump_log ext h (world s)) as [o w'] eqn:E;
        erewrite (bind_returns (log_to_file ext h))
          by (eapply log_to_file_run; exact E)
    end.
    by mrun.
  - by erewrite bind_returns by (by eapply try_returns).
  - erewrite bind_returns by (by eapply try_returns). cbn [ret].
    intros [= <- <-]. destruct (Hr out0 s2 eq_refl) as (? & ? & ? & ?).
    by destruct Hs.
  - erewrite bind_returns
      by (erewrite try_raises by exact Ep; unfold_writes; by mrun).
    mrun.
    match goal with
    | |- context [bind (log_to_file ext ?h) _ ?s] =>
        destruct (dump_log ext h (world s)) as [o w'] eqn:E;
        erewrite (bind_returns (log_to_file ext h))
          by (eapply log_to_file_run; exact E)
    end.
    by mrun.
Qed.

(** How the loop ends: after some passes, either the test fails or one
    more pass returns from the run. *)
Lemma while_loop_exits fuel max_iterations st exit st' :
  while_loop ext fuel max_iterations st = (Returns exit, st') →
  ∃ n stn,
    after_passes ext n max_iterations st = Some stn ∧
    match exit with
    | LoopEnd => st' = stn ∧ ¬ iteration stn < max_iterations
    | LoopReturn out =>
        iteration stn < max_iterations ∧
        loop_pass ext stn = (Returns (Some out), st')
    | OutOfFuel => True
    end.
Proof.
  revert st. induction fuel as [|fuel IH]; intros st;
    rewrite while_loop_unfold;
    destruct (iteration st <? max_iterations) eqn:Hlt.
  - intros [= <- <-]. by exists O, st.
  - intros [= <- <-]. exists O, st. apply Z.ltb_ge in Hlt.
    split_and!; [done..|lia].
  - destruct (loop_pass ext st) as [[[out|]|e] st1] eqn:Ep; [| |done].
    + intros [= <- <-]. exists O, st. apply Z.ltb_lt in Hlt. by split_and!.
    + intros Hw. destruct (IH st1 Hw) as (n & stn & Hn & Hexit).
      exists (S n), stn. cbn [after_passes]. by rewrite Hlt, Ep.
  - intros [= <- <-]. exists O, st. apply Z.ltb_ge in Hlt.
    split_and!; [done..|lia].
Qed.

(** X17: a run whose precheck passes and whose instructions are read returns
    its output, with [progress] completed, in one of two ways: by budget,
    after exactly [max_iterations] passes and as many records; or by the
    completion signal, inside a pass, the last capability entered being
    [task_completed]. *)
Theorem run_ends_by_signal_or_budget user_input st instructions :
  supports_function_calling ext (MODEL_NAME ext) = Returns true →
  open_read ext (VStr (BASE_DIR ext +:+ "/instructions.md")) (world st)
  = Returns instructions →
  0 ≤ p_max_iterations (progress st) →
  let max_iterations := p_max_iterations (progress st) in
  ∃ out st',
    run_main_loop ext user_input st = (Returns (Some out), st') ∧
    out = output st' ∧
    p_status (progress st') = "completed" ∧
    p_completed (progress st') = true ∧
    ((iteration st' = max_iterations ∧
      Z.of_nat (length (history_dict st')) = max_iterations) ∨
     (iteration st' < max_iterations ∧
      Z.of_nat (length (history_dict st')) = iteration st' + 1 ∧
      last (capability_calls (trace st'))
      = Some ("task_completed", VDict []))).
Proof.
  intros Hsup Hread Hmax. cbn zeta.
  rewrite (run_main_loop_supported ext user_input st instructions Hsup Hread).
  cbn zeta. set (st0 := loop_entry instructions user_input st).
  set (max_iterations := p_max_iterations (progress st)) in *.
  assert (counted (persisted (trace st0)) 0 st0) as Hc0.
  { unfold counted. cbn. by rewrite app_nil_r. }
  pose proof (while_loop_fuel ext (Z.to_nat max_iterations) max_iterations st0)
    as Hfuel.
  destruct (while_loop_returns ext (Z.to_nat max_iterations) max_iterations st0)
    as [exit Hret].
  destruct (while_loop ext (Z.to_nat max_iterations) max_iterations st0)
    as [o st1] eqn:Ew.
  cbn [fst] in Hret, Hfuel. subst o.
  destruct (while_loop_exits _ _ _ _ _ Ew) as (n & stn & Hn & Hexit).
  destruct (counted_passes ext _ _ _ O st0 stn Hc0 eq_refl Hn)
    as (Hcn & Hin & Hle).
  cbn [Nat.add] in *.
  erewrite bind_returns by exact Ew.
  destruct exit as [|out|].
  - destruct Hexit as [-> Hge]. destruct Hcn as (Hlen & _).
    assert (Z.of_nat n = max_iterations) as Hnmax.
    { destruct n; [lia|]. specialize (Hle ltac:(done)). lia. }
    unfold_writes. mrun.
    destruct (iteration stn >=? max_iterations); mrun; cbn [ret];
      eexists _, _; (split; [reflexivity|]); simpl_state;
      (split_and!; [done..|]); left; split; congruence.
  - destruct Hexit as [Hlt Hpass].
    destruct (loop_pass_return _ _ _ Hpass) as (Ho & Hs & Hdone & Hl & Hi).
    pose proof (counted_pass ext _ _ _ Hcn Hin) as (Hlen & _).
    rewrite Hpass in Hlen. cbn [snd] in Hlen.
    cbn [ret]. exists out, st1. split_and!; [done..|].
    right. split_and!; [lia|lia|done].
  - exfalso. apply Hfuel; [|done]. subst st0. cbn. lia.
Qed.

Lemma pass_try_calls st :
  (length (gateway_calls (trace (pass_try ext st).2))
   ≤ length (gateway_calls (trace st)) + 2)%nat.
Proof.
  unfold pass_try. mrun. rewrite bind_effect. simpl_state.
  destruct (completion ext (messages st) true (world st)) as [[response|e] w].
  2: { cbn [snd]. simpl_trace. rewrite length_app. cbn. lia. }
  rewrite bind_of_outcome. unfold first_choice.
  destruct (resp_choices response) as [|[m|] cs].
  { cbn [snd]. simpl_trace. rewrite length_app. cbn. lia. }
  - unfold_writes. mrun.
    destruct (msg_tool_calls m) as [|tc tcs].
    + mrun. cbn [snd ret]. simpl_trace. rewrite length_app. cbn. lia.
    + mrun.
      match goal with
      | |- context [bind (dispatch ext ?l) _ ?s] =>
          pose proof (dispatch_beyond ext l s) as Hb;
          destruct (dispatch_returns ext l s) as [r Hr];
          destruct (dispatch ext l s) as [o st1] eqn:Ed
      end; cbn [fst snd] in Hr, Hb. subst o.
      unfold same_on, beyond_dispatch in Hb. injection Hb as _ Hg.
      simpl_state in Hg. revert Hg. simpl_trace. intros Hg.
      apply (f_equal length) in Hg. rewrite length_app in Hg. cbn in Hg.
      erewrite bind_returns by exact Ed. destruct r as [out|].
      * cbn [snd ret]. unfold gateway_calls. lia.
      * pose proof (second_completion_calls ext st1) as Hs.
        apply (f_equal length) in Hs. rewrite length_app in Hs.
        cbn [length] in Hs. unfold gateway_calls in Hs.
        destruct (second_completion ext st1) as [[[]|e] st2] eqn:Es;
          cbn [snd] in Hs.
        -- erewrite bind_returns by exact Es. unfold_writes. mrun.
           cbn [snd ret]. simpl_trace. lia.
        -- erewrite bind_raises by exact Es. cbn [snd].
           unfold gateway_calls. lia.
  - unfold_writes. mrun.
    match goal with
    | |- context [bind (log_to_file ext ?h) _ ?s] =>
        destruct (dump_log ext h (world s)) as [o w'] eqn:E;
        erewrite (bind_returns (log_to_file ext h))
          by (eapply log_to_file_run; exact E)
    end.
    mrun. cbn [snd ret]. simpl_trace. rewrite length_app. cbn. lia.
Qed.

Lemma loop_pass_calls st :
  (length (gateway_calls (trace (loop_pass ext st).2))
   ≤ length (gateway_calls (trace st)) + 2)%nat.
Proof.
  unfold loop_pass. unfold_writes. mrun.
  match goal with
  | |- context [bind (try_except (pass_try ext) ?h) ?k ?s] =>
      pose proof (pass_try_calls s) as Hc;
      destruct (pass_try ext s) as [[[ | |out0]|e] s2] eqn:Ep
  end; cbn [snd] in Hc; revert Hc; simpl_trace; intros Hc.
  - erewrite bind_returns by (by eapply try_returns). mrun.
    match goal with
    | |- context [bind (log_to_file ext ?h) _ ?s] =>
        destruct (dump_log ext h (world s)) as [o w'] eqn:E;
        erewrite (bind_returns (log_to_file ext h))
          by (eapply log_to_file_run; exact E)
    end.
    mrun. cbn [snd ret]. by simpl_trace.
  - by erewrite bind_returns by (by eapply try_returns).
  - by erewrite bind_returns by (by eapply try_returns).
  - erewrite bind_returns
      by (erewrite try_raises by exact Ep; unfold_writes; by mrun).
    mrun.
    match goal with
    | |- context [bind (log_to_file ext ?h) _ ?s] =>
        destruct (dump_log ext h (world s)) as [o w'] eqn:E;
        erewrite (bind_returns (log_to_file ext h))
          by (eapply log_to_file_run; exact E)
    end.
    mrun. cbn [snd ret]. by simpl_trace.
Qed.

Lemma while_loop_calls fuel max_iterations st :
  (length (gateway_calls (trace (while_loop ext fuel max_iterations st).2))
   ≤ length (gateway_calls (trace st))
     + 2 * Z.to_nat (max_iterations - iteration st))%nat.
Proof.
  revert st. induction fuel as [|fuel IH]; intros st;
    rewrite while_loop_unfold;
    destruct (iteration st <? max_iterations) eqn:Hlt; cbn [snd]; try lia.
  apply Z.ltb_lt in Hlt.
  pose proof (loop_pass_calls st) as Hc.
  destruct (loop_pass_spec ext st) as ((o & Ho & Hi) & _).
  destruct (loop_pass ext st) as [[[out|]|e] st1];
    cbn [fst snd] in *; [lia| |lia].
  specialize (IH st1). rewrite Hi in IH by congruence. lia.
Qed.

(** X18: a run calls the gateway at most twice for each pass of its budget. *)
Theorem run_calls_gateway_within_budget user_input st :
  (length (gateway_calls (trace (run_main_loop ext user_input st).2))
   ≤ length (gateway_calls (trace st))
     + 2 * Z.to_nat (p_max_iterations (progress st)))%nat.
Proof.
  destruct (supports_function_calling ext (MODEL_NAME ext)) as [[]|e] eqn:Hsup.
  - destruct (open_read ext (VStr (BASE_DIR ext +:+ "/instructions.md"))
                (world st)) as [instructions|e] eqn:Hread.
    + rewrite (run_main_loop_supported ext _ _ _ Hsup Hread). cbn zeta.
      set (st0 := loop_entry instructions user_input st).
      pose proof (while_loop_calls
                    (Z.to_nat (p_max_iterations (progress st)))
                    (p_max_iterations (progress st)) st0) as Hw.
      assert (iteration st0 = 0) as Hi0 by done.
      assert (trace st0 = trace st) as Ht0 by done.
      rewrite Hi0, Ht0, Z.sub_0_r in Hw.
      unfold bind at 1.
      destruct (while_loop ext _ _ st0) as [[[|out|]|e] st1]; cbn [snd] in *;
        try done.
      unfold_writes. mrun.
      destruct (_ >=? _); mrun; cbn [snd ret]; by simpl_trace.
    + unfold run_main_loop.
      rewrite bind_modify, bind_of_outcome, Hsup. cbn [negb].
      rewrite bind_gets, bind_modify. unfold read_instructions.
      rewrite bind_observe. simpl_state. rewrite Hread. cbn [snd].
      simpl_state. lia.
  - rewrite run_main_loop_unsupported by done. cbn [snd]. simpl_trace. lia.
  - unfold run_main_loop. rewrite bind_modify, bind_of_outcome, Hsup.
    cbn [snd]. simpl_state. lia.
Qed.
End Terminal.

Lemma run_ends_by_signal_or_budget_witness :
  let ext := sample_externals text_reply_script true false in
  let r := run_main_loop ext "hi" (sample_start 1) in
  0 ≤ p_max_iterations (progress (sample_start 1)) ∧
  ∃ out st',
    r = (Returns (Some out), st') ∧
    p_status (progress st') = "completed" ∧
    p_completed (progress st') = true ∧
    iteration st' = 1 ∧
    history_dict st' = [mkRecord 1 [] ["done"] [] []].
Proof.
  split; [by vm_compute|].
  destruct (run_ends_by_signal_or_budget
              (sample_externals text_reply_script true false) "hi"
              (sample_start 1) "Build the app." eq_refl eq_refl
              ltac:(by vm_compute))
    as (out & st' & Hrun & _ & Hs & Hc & _).
  exists out, st'. split_and!; try done.
  - vm_compute in Hrun. by injection Hrun as _ <-.
  - vm_compute in Hrun. by injection Hrun as _ <-.
Defined.

(** * What the records of the history hold *)

Section Records.
Context {W : Type} (ext : Externals W).
Implicit Type st : RunState W.

Lemma record_tool_result_history tool_call function_response st h cur :
  history_dict st = h ++ [cur] →
  history_dict (record_tool_result ext tool_call function_response st).2
  = h ++ [add_tool_result (tc_name tool_call, function_response) cur].
Proof.
  intros Hh. unfold record_tool_result. unfold_writes. mrun.
  destruct (String.eqb (tc_name tool_call) "task_completed").
  - unfold_writes. mrun.
    match goal with
    | |- context [bind (log_to_file ext ?hh) _ ?s] =>
        destruct (dump_log ext hh (world s)) as [o w] eqn:E;
        erewrite (bind_returns (log_to_file ext hh))
          by (eapply log_to_file_run; exact E)
    end.
    cbn [ret snd]. simpl_state. by rewrite Hh, alter_last.
  - cbn [ret snd]. simpl_state. by rewrite Hh, alter_last.
Qed.

(** One call leaves one entry in the current record: a tool result when it
    returned, an error otherwise. *)
Lemma dispatch_tool_call_record tool_call st h cur :
  history_dict st = h ++ [cur] →
  ∃ cur',
    history_dict (dispatch_tool_call ext tool_call st).2 = h ++ [cur'] ∧
    rec_tool_results cur'
    = rec_tool_results cur
      ++ omap result_of_reply (tool_reply_of ext tool_call st) ∧
    (length (rec_errors cur') + length (tool_reply_of ext tool_call st)
     = S (length (rec_errors cur)))%nat ∧
    rec_llm_responses cur' = rec_llm_responses cur.
Proof.
  intros Hh. rewrite dispatch_tool_call_unfold.
  unfold tool_reply_of, call_result.
  destruct (available_functions !! _) as [t|].
  - pose proof (execute_tool_call_beyond ext t tool_call st) as Hb.
    unfold same_on, beyond_tools in Hb.
    destruct (execute_tool_call _ _ _ _) as [[v|e] st1]; cbn [fst snd] in *.
    + assert (history_dict st1 = h ++ [cur]) as Hh1 by congruence.
      eexists. split; [by apply record_tool_result_history|].
      cbn. split_and!; [done|lia|done].
    + assert (history_dict st1 = h ++ [cur]) as Hh1 by congruence.
      erewrite append_error_run by exact Hh1. eexists. split; [done|].
      cbn. rewrite app_nil_r, length_app. cbn. split_and!; [done|lia|done].
  - erewrite append_error_run by exact Hh. eexists. split; [done|].
    cbn. rewrite app_nil_r, length_app. cbn. split_and!; [done|lia|done].
Qed.

(** X19: a batch of tool calls is accounted for in the current record, call by
    call: its tool results are those of the calls that returned, in the
    order of the calls, and mirror the tool-role messages that joined the
    conversation; when the batch was gone through to its end, every other
    call left one error entry. Nothing else of the record changes, and the
    earlier records are as before. *)
Theorem every_call_is_accounted_for tool_calls st h cur :
  history_dict st = h ++ [cur] →
  let r := dispatch ext tool_calls st in
  let replies := tool_replies ext tool_calls st in
  ∃ cur',
    history_dict r.2 = h ++ [cur'] ∧
    rec_tool_results cur'
    = rec_tool_results cur ++ omap result_of_reply replies ∧
    rec_llm_responses cur' = rec_llm_responses cur ∧
    (r.1 = Returns None →
     (length (rec_errors cur') + length replies
      = length (rec_errors cur) + length tool_calls)%nat).
Proof.
  cbn zeta. revert st cur.
  induction tool_calls as [|tc rest IH]; intros st cur Hh.
  - exists cur. cbn. by rewrite app_nil_r.
  - cbn [dispatch tool_replies]. unfold bind.
    destruct (dispatch_tool_call_record tc st h cur Hh)
      as (cur1 & Hh1 & Hres & Herr & Hllm).
    destruct (dispatch_tool_call_returns ext tc st) as [r Hr].
    destruct (dispatch_tool_call ext tc st) as [o st1]. cbn [fst snd] in *.
    subst o. destruct r as [out|].
    + exists cur1. cbn [fst snd]. rewrite app_nil_r. by split_and!.
    + destruct (IH st1 cur1 Hh1) as (cur' & Hh' & Hres' & Hllm' & Herr').
      exists cur'. split_and!; [done| |congruence|].
      * by rewrite Hres', Hres, omap_app, app_assoc.
      * intros Hnone. specialize (Herr' Hnone).
        rewrite length_app. cbn [length]. lia.
Qed.
End Records.

Lemma every_call_is_accounted_for_witness :
  let ext := sample_externals script_faults true false in
  let st := before_dispatch (mkLLMMessage None faulty_batch) 1%nat
              (sample_entry 2) in
  history_dict st = [] ++ [mkRecord 1 [] [""] [] []] ∧
  ∃ cur',
    history_dict (dispatch ext faulty_batch st).2 = [cur'] ∧
    rec_tool_results cur'
    = [("store_code", VStr "Code stored with ID: pass")] ∧
    length (rec_errors cur') = 3%nat.
Proof.
  split; [reflexivity|].
  destruct (every_call_is_accounted_for
              (sample_externals script_faults true false) faulty_batch
              (before_dispatch (mkLLMMessage None faulty_batch) 1%nat
                 (sample_entry 2))
              [] (mkRecord 1 [] [""] [] []) eq_refl)
    as (cur' & Hh & Hres & _ & Herr).
  exists cur'. split_and!.
  - exact Hh.
  - rewrite Hres. by vm_compute.
  - specialize (Herr ltac:(by vm_compute)).
    match type of Herr with
    | context [length (tool_replies ?e ?l ?s)] =>
        assert (length (tool_replies e l s) = 1%nat) as Hn by (by vm_compute)
    end.
    rewrite Hn in Herr. unfold faulty_batch in Herr.
    cbn [length rec_errors] in Herr. lia.
Defined.

(** * The actions of the records *)

Section Actions.
Context {W : Type} (ext : Externals W).
Implicit Type st : RunState W.

#[export] Instance actions_stay_empty_preorder :
  PreOrder (actions_stay_empty (W:=W)).
Proof.
  split.
  - intros st H. split; [done|]. exists []. by rewrite app_nil_r.
  - intros a b c Hab Hbc H.
    destruct (Hab H) as (Hb & evs & Ht & Hp).
    destruct (Hbc Hb) as (Hc & evs' & Ht' & Hp').
    split; [done|]. exists (evs ++ evs').
    split; [by rewrite Ht', Ht, app_assoc|].
    unfold persisted in *. rewrite omap_app. by apply Forall_app.
Qed.

Lemma actions_same st st' :
  history_dict st' = history_dict st → trace st' = trace st →
  actions_stay_empty st st'.
Proof.
  intros Hh Ht H. rewrite Hh. split; [done|]. exists [].
  by rewrite Ht, app_nil_r.
Qed.

Lemma actions_event st st' e :
  history_dict st' = history_dict st → trace st' = trace st ++ [e] →
  persisted [e] = [] → actions_stay_empty st st'.
Proof.
  intros Hh Ht He H. rewrite Hh. split; [done|]. exists [e].
  split; [done|]. rewrite He. constructor.
Qed.

Lemma actions_update (f : IterationRecord → IterationRecord) st st' :
  (∀ r, rec_actions (f r) = rec_actions r) →
  history_dict st'
  = alter f (pred (length (history_dict st))) (history_dict st) →
  trace st' = trace st →
  actions_stay_empty st st'.
Proof.
  intros Hf Hh Ht H. rewrite Hh. split.
  - apply Forall_alter; [done|]. intros r _ Hr. unfold without_action.
    by rewrite Hf.
  - exists []. by rewrite Ht, app_nil_r.
Qed.

Lemma actions_new st st' i :
  history_dict st' = history_dict st ++ [new_iteration i] →
  trace st' = trace st →
  actions_stay_empty st st'.
Proof.
  intros Hh Ht H. rewrite Hh. split.
  - apply Forall_app. split; [done|]. by repeat constructor.
  - exists []. by rewrite Ht, app_nil_r.
Qed.

(** The history that [log_to_file] is handed is the history as it is. *)
Lemma actions_logged {A} (k : unit → M W A) :
  steps actions_stay_empty (k tt) →
  steps actions_stay_empty
    (bind (gets history_dict)
       (λ history, bind (log_to_file ext history) k)).
Proof.
  intros Hk st. rewrite bind_gets.
  destruct (dump_log ext (history_dict st) (world st)) as [o w] eqn:E.
  erewrite (bind_returns (log_to_file ext _))
    by (eapply log_to_file_run; exact E).
  etrans; [|apply Hk]. intros H. split; [done|].
  exists [EvLog (history_dict st)]. split; [done|]. cbn. by repeat constructor.
Qed.
End Actions.

Ltac leaf_actions :=
  first [ apply actions_same; reflexivity
        | eapply actions_event; reflexivity
        | eapply actions_update; [|reflexivity|reflexivity]; by intros []
        | eapply actions_new; reflexivity ].

(** As [steps_with], with the writes of the log taken together with the
    read of the history that they are handed. *)
Ltac steps_logged leaf :=
  lazymatch goal with
  | |- steps _ (bind (gets history_dict) (λ _, bind (log_to_file _ _) _)) =>
      apply actions_logged; cbn beta; steps_logged leaf
  | |- steps _ (bind _ _) =>
      steps_rule steps_bind; [ steps_logged leaf | intros ?; steps_logged leaf ]
  | |- steps _ (try_except _ _) =>
      steps_rule steps_try; [ steps_logged leaf | intros ?; steps_logged leaf ]
  | |- steps _ (ret _) => steps_rule steps_ret
  | |- steps _ (raise _) => steps_rule steps_raise
  | |- steps _ (gets _) => steps_rule steps_gets
  | |- steps _ (of_outcome _) => steps_rule steps_of_outcome
  | |- steps _ (observe _) => steps_rule steps_observe
  | |- steps _ (modify _) => steps_rule steps_modify; intros ?; leaf
  | |- steps _ (effect _) => steps_rule steps_effect; intros ? ?; leaf
  | |- steps _ (match ?x with _ => _ end) => destruct x; steps_logged leaf
  | |- steps _ (let _ := _ in _) => cbv zeta; steps_logged leaf
  | |- steps _ ?m =>
      first
        [ solve [ auto with steps ]
        | let h := head_of m in unfold h; steps_logged leaf ]
  end.

Section ActionsOfTheRun.
Context {W : Type} (ext : Externals W).
Implicit Type st : RunState W.

Lemma dispatch_actions tool_calls :
  steps actions_stay_empty (dispatch ext tool_calls).
Proof.
  apply dispatch_steps; [apply _|]. intros tc. steps_logged leaf_actions.
Qed.

Hint Resolve dispatch_actions : steps.

Lemma loop_pass_actions : steps actions_stay_empty (loop_pass ext).
Proof. steps_logged leaf_actions. Qed.

Lemma while_loop_actions fuel max_iterations :
  steps actions_stay_empty (while_loop ext fuel max_iterations).
Proof.
  induction fuel as [|fuel IH]; intros st; rewrite while_loop_unfold;
    destruct (iteration st <? max_iterations); try reflexivity.
  pose proof (loop_pass_actions st) as Hp.
  destruct (loop_pass ext st) as [[[out|]|e] st']; cbn [snd] in *; try done.
  etrans; [exact Hp|apply IH].
Qed.

Hint Resolve while_loop_actions : steps.

(** X20: nothing in a run writes to the [actions] of a record: in the history
    that a run leaves, and in every history that it handed to
    [log_to_file], the [actions] of every record are empty. *)
Theorem actions_are_never_recorded user_input st :
  let st' := (run_main_loop ext user_input st).2 in
  Forall without_action (history_dict st') ∧
  ∃ evs, trace st' = trace st ++ evs ∧
         Forall (Forall without_action) (persisted evs).
Proof.
  cbn zeta. unfold run_main_loop. rewrite bind_modify.
  match goal with
  | |- context [bind ?m ?k (set_history_dict [] st)] =>
      assert (steps actions_stay_empty (bind m k)) as Hrun
        by steps_logged leaf_actions;
      specialize (Hrun (set_history_dict [] st))
  end.
  apply Hrun. constructor.
Qed.
End ActionsOfTheRun.
